(** * Lavapy websocket client: a shallow embedding of [lavapy/websocket.py]

    The class [Websocket] owns one connection to a Lavalink node.  Its
    methods are coroutines that talk to collaborators which live in other
    modules ([Node], [Player], the [events] classes, [ExponentialBackoff])
    or in libraries (aiohttp, asyncio, the [int] builtin).

    The embedding follows the code statement by statement:
    - a Python exception is a value of [exn]; a call that may raise returns
      a [Result];
    - the object state ([open], [connected], [connection], [_listener]) is a
      record, and the players registered on the node are a list that
      [updateState] changes in place (by index), every entry an object of
      its own; [Registry] has them as references instead, for what depends
      on one object being listed more than once;
    - every call that leaves this class is appended to a log of [Call]s,
      so the order and the number of collaborator calls can be stated;
    - the listener loop consumes the outcomes of [connection.receive()] one
      after the other: when none is left the coroutine is suspended in
      [receive], which is a state of its own ([Awaiting]).

    The [logger.debug] calls have no effect on the state and are left out. *)

From stdpp Require Import base gmap strings list fin_maps.
From Stdlib Require Import ZArith Ascii DecimalString.

Set Warnings "-register-all".
Open Scope Z_scope.
Open Scope string_scope.

(** ** Python values *)

(** What [json.loads] returns.  Numbers are the integral ones; a dict is a
    finite map from keys to values. *)
Inductive JSON : Type :=
  | JNull
  | JBool (b : bool)
  | JInt (z : Z)
  | JStr (s : string)
  | JList (l : list JSON)
  | JDict (d : gmap string JSON).

(** The exceptions the code can raise.  [Custom] stands for an exception
    class declared elsewhere (by a collaborator, or by name in the
    specification); nothing in [websocket.py] raises one by itself. *)
Inductive exn : Type :=
  | IndexError
  | KeyError (key : string)
  | AttributeError (attr : string)
  | TypeError
  | ValueError
  | JSONDecodeError
  | Custom (name : string).

Inductive Result (A : Type) : Type :=
  | Ok (a : A)
  | Raise (e : exn).
Arguments Ok {A} a.
Arguments Raise {A} e.

(** [str(n)] for an integer. *)
Definition str (n : Z) : string := NilZero.string_of_int (Z.to_int n).

(** ** aiohttp messages *)

Inductive WSMsgType : Type :=
  | CONTINUATION | TEXT | BINARY | PING | PONG | CLOSE | CLOSING | CLOSED | ERROR.

(** A received [WSMessage]: its [type], and what calling [msg.json()] on it
    gives (the decoded value, or the decoder's exception). *)
Record WSMessage : Type := {
  type : WSMsgType;
  json : Result JSON
}.

(** The coroutines of the class that are handed to [create_task]. *)
Inductive Coroutine : Type :=
  | co_connect
  | co_listener
  | co_processListener (data : JSON).

(** An asyncio [Task] handle: the coroutine it runs, and whether
    [Task.cancel()] has been called on it. *)
Record Task : Type := {
  coro : Coroutine;
  cancel_requested : bool
}.

(** State of a [ClientWebSocketResponse]. *)
Inductive ClientWebSocketResponse : Type :=
  | ws_open
  | ws_closed.

(** The attributes of the [Node] that [Websocket] reads. *)
Record NodeConfig : Type := {
  host : string;
  port : Z;
  password : string;
  bot_user_id : Z
}.

(** The attributes of a [Websocket] instance. *)
Record Websocket : Type := {
  open : bool;
  connected : bool;
  connection : option ClientWebSocketResponse;
  _listener : option Task
}.

(** ** The class, over its collaborators *)

(** Types that belong to other modules. *)
Class Types : Type := {
  Track : Type;          (* what [node.buildTrack] returns *)
  PlayerState : Type;    (* what [Player.updateState] changes *)
  Backoff : Type;        (* an [ExponentialBackoff] object *)
  Duration : Type        (* what [backoff.delay()] returns *)
}.

Section WebsocketClass.

Context {types : Types}.

(** A [Player]: [player.guild.id] and the rest of its state. *)
Record Player : Type := {
  guild_id : Z;
  player_state : PlayerState
}.

(** Values found in an event payload. *)
Inductive PyObject : Type :=
  | PyPlayer (p : Player)
  | PyTrack (t : Track)
  | PyJSON (j : JSON).

(** A [LavapyEvent]: the attributes [event] and [payload]. *)
Record LavapyEvent : Type := {
  event : string;
  payload : gmap string PyObject
}.

(** Calls of other modules. *)
Class Collaborators : Type := {
  int : JSON -> Result Z;                        (* the builtin [int] *)
  updateState : JSON -> PlayerState -> PlayerState;
  buildTrack : JSON -> Result Track;             (* [node.buildTrack] *)
  ExponentialBackoff : Backoff;                  (* [ExponentialBackoff()] *)
  delay : Backoff -> Duration * Backoff;         (* [backoff.delay()] *)
  WebsocketClosedEvent : Player -> JSON -> Result LavapyEvent;
  TrackStartEvent : Player -> Track -> Result LavapyEvent;
  TrackEndEvent : Player -> Track -> JSON -> Result LavapyEvent;
  TrackExceptionEvent : Player -> Track -> JSON -> Result LavapyEvent;
  TrackStuckEvent : Player -> Track -> JSON -> Result LavapyEvent
}.

Context {collaborators : Collaborators}.

(** Every call that leaves the class, in the order it is made. *)
Inductive Call : Type :=
  | ws_connect (url : string) (headers : list (string * string)) (heartbeat : Z)
  | create_task (c : Coroutine)
  | connection_close
  | connection_receive
  | new_backoff
  | backoff_delay (b : Backoff)
  | sleep (d : Duration)
  | player_updateState (index : nat) (data : JSON)
  | node_buildTrack (track : JSON)
  | bot_dispatch (name : string) (kwargs : gmap string PyObject).

(** What a method can read and change: the instance, [node.players], and
    the log of calls made so far (latest last). *)
Record World : Type := {
  node : NodeConfig;
  self : Websocket;
  players : list Player;
  calls : list Call
}.

Definition set_self (f : Websocket -> Websocket) (w : World) : World :=
  {| node := node w; self := f (self w); players := players w; calls := calls w |}.
Definition set_players (f : list Player -> list Player) (w : World) : World :=
  {| node := node w; self := self w; players := f (players w); calls := calls w |}.
Definition add_call (c : Call) (w : World) : World :=
  {| node := node w; self := self w; players := players w; calls := calls w ++ [c] |}.

(** A method body: it runs in a world, returns or raises, and leaves a
    world. *)
Definition M (A : Type) : Type := World -> Result A * World.

Definition ret {A} (a : A) : M A := fun w => (Ok a, w).
Definition raise {A} (e : exn) : M A := fun w => (Raise e, w).
Definition bind {A B} (m : M A) (k : A -> M B) : M B :=
  fun w => match m w with
           | (Ok a, w') => k a w'
           | (Raise e, w') => (Raise e, w')
           end.
Definition lift {A} (r : Result A) : M A := fun w => (r, w).
Definition get : M World := fun w => (Ok w, w).
Definition modify (f : World -> World) : M unit := fun w => (Ok tt, f w).
Definition call (c : Call) : M unit := modify (add_call c).

#[global] Instance M_ret : MRet M := @ret.
#[global] Instance M_bind : MBind M := fun A B k m => bind m k.

(** *** Reading a decoded message *)

(** [data.get(key)]: only a dict has the method. *)
Definition dict_get (data : JSON) (key : string) : Result (option JSON) :=
  match data with
  | JDict d => Ok (d !! key)
  | _ => Raise (AttributeError "get")
  end.

(** [data[key]] where [data] went through [data.get] before, so it is a
    dict here; on another value the subscript is a [TypeError]. *)
Definition subscript (data : JSON) (key : string) : Result JSON :=
  match data with
  | JDict d => match d !! key with
               | Some v => Ok v
               | None => Raise (KeyError key)
               end
  | _ => Raise TypeError
  end.

(** [value == "literal"] *)
Definition eq_str (value : JSON) (literal : string) : bool :=
  match value with
  | JStr s => bool_decide (s = literal)
  | _ => false
  end.

(** *** [Websocket.__init__] *)
Definition __init__ (n : NodeConfig) (ps : list Player) : World :=
  {| node := n;
     self := {| open := false; connected := false;
                connection := None; _listener := None |};
     players := ps;
     calls := [create_task co_connect] |}.

(** *** [Websocket.isConnected] *)
Definition isConnected (w : World) : bool :=
  connected (self w) && open (self w).

(** *** [Websocket.__repr__]
    [str] of a bool is ["True"] or ["False"]. *)
Definition __repr__ (w : World) : string :=
  "<Lavapy Websocket (Domain=" ++ host (node w) ++ ":" ++ str (port (node w))
  ++ ") (Connected=" ++ (if connected (self w) then "True" else "False") ++ ")>".

(** *** [Websocket.getPlayer]
    [[player for player in self.node.players if player.guild.id == guildID][0]]:
    the first player of the guild, with its place in [node.players] (the
    object itself, which [updateState] then changes), or [IndexError] when
    the comprehension is empty. *)
Definition getPlayer (guildID : Z) : M (nat * Player) :=
  fun w =>
    match filter (fun ip => guild_id (snd ip) = guildID) (imap pair (players w)) !! 0%nat with
    | Some player => (Ok player, w)
    | None => (Raise IndexError, w)
    end.

(** *** [Websocket.connect]
    [handshake] is the outcome of awaiting [session.ws_connect]. *)
Definition connect (handshake : Result ClientWebSocketResponse) : M unit :=
  w ← get;
  let headers := [("Authorization", password (node w));
                  ("User-Id", str (bot_user_id (node w)));
                  ("Client-Name", "Lavapy")] in
  call (ws_connect ("ws://" ++ host (node w) ++ ":" ++ str (port (node w))) headers 60);;
  c ← lift handshake;
  modify (set_self (fun s => {| open := open s; connected := connected s;
                                connection := Some c; _listener := _listener s |}));;
  call (create_task co_listener);;
  modify (set_self (fun s => {| open := open s; connected := connected s;
                                connection := connection s;
                                _listener := Some {| coro := co_listener;
                                                     cancel_requested := false |} |}));;
  modify (set_self (fun s => {| open := open s; connected := true;
                                connection := connection s; _listener := _listener s |}));;
  modify (set_self (fun s => {| open := true; connected := connected s;
                                connection := connection s; _listener := _listener s |})).

(** *** [Websocket.disconnect]
    [self.connection.close()] needs a connection object: on [None] the
    attribute lookup raises. *)
Definition disconnect : M unit :=
  w ← get;
  match connection (self w) with
  | None => raise (AttributeError "close")
  | Some _ =>
      call connection_close;;
      modify (set_self (fun s => {| open := open s; connected := connected s;
                                    connection := Some ws_closed;
                                    _listener := _listener s |}))
  end;;
  modify (set_self (fun s => {| open := open s; connected := false;
                                connection := connection s; _listener := _listener s |}));;
  modify (set_self (fun s => {| open := false; connected := connected s;
                                connection := connection s; _listener := _listener s |})).

(** *** [Websocket.dispatchEvent]
    [self.node.bot.dispatch(event, **payload)] *)
Definition dispatchEvent (event : string) (payload : gmap string PyObject) : M unit :=
  call (bot_dispatch event payload).

(** *** [Websocket.getEventPayload]
    The player is looked up first; then [WebSocketClosedEvent] returns;
    then the track is built; then the four track events.  A name that
    matches none of the five falls off the end of the [if] chain, and the
    coroutine returns [None]. *)
Definition getEventPayload (name : JSON) (data : JSON) : M (option LavapyEvent) :=
  guildId ← lift (subscript data "guildId");
  guildID ← lift (int guildId);
  player ← getPlayer guildID;
  if eq_str name "WebSocketClosedEvent" then
    e ← lift (WebsocketClosedEvent (snd player) data); mret (Some e)
  else
    encoded ← lift (subscript data "track");
    call (node_buildTrack encoded);;
    track ← lift (buildTrack encoded);
    if eq_str name "TrackStartEvent" then
      e ← lift (TrackStartEvent (snd player) track); mret (Some e)
    else if eq_str name "TrackEndEvent" then
      e ← lift (TrackEndEvent (snd player) track data); mret (Some e)
    else if eq_str name "TrackExceptionEvent" then
      e ← lift (TrackExceptionEvent (snd player) track data); mret (Some e)
    else if eq_str name "TrackStuckEvent" then
      e ← lift (TrackStuckEvent (snd player) track data); mret (Some e)
    else mret None.

(** *** [Websocket.processListener] *)
Definition processListener (data : JSON) : M unit :=
  op ← lift (dict_get data "op");
  if from_option (fun v => eq_str v "playerUpdate") false op then
    guildId ← lift (subscript data "guildId");
    guildID ← lift (int guildId);
    player ← getPlayer guildID;
    call (player_updateState (fst player) data);;
    modify (set_players
              (alter (fun p => {| guild_id := guild_id p;
                                  player_state := updateState data (player_state p) |})
                     (fst player)))
  else if from_option (fun v => eq_str v "event") false op then
    name ← lift (subscript data "type");
    built ← getEventPayload name data;
    match built with
    | None => raise (AttributeError "event")
    | Some e => dispatchEvent ("lavapy_" ++ event e) (payload e)
    end
  else if from_option (fun v => eq_str v "stats") false op then
    mret tt
  else mret tt.

(** *** [Websocket.listener]
    [incoming] holds the outcomes of the successive
    [await self.connection.receive()].  The loop has no exit: the
    coroutine either waits in [receive] ([Awaiting]) or an exception left
    it ([Stopped]). *)
Inductive ListenerState : Type :=
  | Awaiting
  | Stopped (e : exn).

Fixpoint listener (incoming : list (Result WSMessage)) (w : World) : ListenerState * World :=
  let backoff := ExponentialBackoff in
  let w := add_call new_backoff w in
  let w := add_call connection_receive w in
  match incoming with
  | [] => (Awaiting, w)
  | Raise e :: _ => (Stopped e, w)
  | Ok msg :: incoming =>
      match type msg with
      | TEXT =>
          match json msg with
          | Raise e => (Stopped e, w)
          | Ok data =>
              match processListener data (add_call (create_task (co_processListener data)) w) with
              | (Raise e, w) => (Stopped e, w)
              | (Ok _, w) => listener incoming w
              end
          end
      | CLOSED =>
          let w := add_call (backoff_delay backoff) w in
          let w := add_call (sleep (fst (delay backoff))) w in
          listener incoming w
      | _ => listener incoming w
      end
  end.

End WebsocketClass.

Section Observations.

Context {types : Types} {collaborators : Collaborators}.

(** The calls one message can cause. *)
Definition message_call (c : Call) : Prop :=
  match c with
  | player_updateState _ _ | node_buildTrack _ | bot_dispatch _ _ => True
  | _ => False
  end.

(** The world in which the message just received is processed. *)
Definition received (data : JSON) (w : World) : World :=
  add_call (create_task (co_processListener data))
    (add_call connection_receive (add_call new_backoff w)).

(** Every [backoff.delay()] of the loop is called on the object made at
    the top of the same iteration: in the log, [delay] is only ever
    called on a backoff in the state its constructor leaves it in. *)
Definition delay_on_fresh_backoff (c : Call) : Prop :=
  match c with
  | backoff_delay b => b = ExponentialBackoff
  | _ => True
  end.

(** What [getEventPayload] returns when it returns what a constructor
    made. *)
Definition built (r : Result LavapyEvent) : Result (option LavapyEvent) :=
  match r with
  | Ok e => Ok (Some e)
  | Raise x => Raise x
  end.

(** Kinds of calls, to count them in a log. *)
Definition is_sleep (c : Call) : bool :=
  match c with sleep _ => true | _ => false end.
Definition is_receive (c : Call) : bool :=
  match c with connection_receive => true | _ => false end.
Definition is_new_backoff (c : Call) : bool :=
  match c with new_backoff => true | _ => false end.
Definition is_closed (r : Result WSMessage) : bool :=
  match r with
  | Ok msg => match type msg with CLOSED => true | _ => false end
  | Raise _ => false
  end.

Definition count {A} (f : A -> bool) (l : list A) : nat :=
  length (filter (fun x => f x = true) l).

(** The calls one message can cause, spelled out. *)
Inductive message_calls (data : JSON) : list Call -> Prop :=
  | mc_none : message_calls data []
  | mc_update i : message_calls data [player_updateState i data]
  | mc_track encoded : message_calls data [node_buildTrack encoded]
  | mc_dispatch e :
      message_calls data [bot_dispatch ("lavapy_" ++ event e) (payload e)]
  | mc_track_dispatch encoded e :
      message_calls data [node_buildTrack encoded;
                          bot_dispatch ("lavapy_" ++ event e) (payload e)].

(** What the loop logs for CLOSED messages in a row: for each of them a
    fresh backoff, the [receive] that returned it, one [delay] on that
    backoff and the sleep for it. *)
Definition closed_round : list Call :=
  [new_backoff; connection_receive; backoff_delay ExponentialBackoff;
   sleep (fst (delay ExponentialBackoff))].
Definition closed_rounds (n : nat) : list Call :=
  concat (replicate n closed_round).

(** The calls one message causes, each with where it comes from: the
    [updateState] is on the player [getPlayer] returned for the message's
    guild, the [buildTrack] is on the message's ["track"], and the dispatch
    is of the event [getEventPayload] built from the message. *)
Inductive caused_by (data : JSON) (w : World) : list Call -> Prop :=
  | caused_nothing : caused_by data w []
  | caused_update g guildID i p :
      subscript data "guildId" = Ok g ->
      int g = Ok guildID ->
      getPlayer guildID w = (Ok (i, p), w) ->
      caused_by data w [player_updateState i data]
  | caused_track encoded :
      subscript data "track" = Ok encoded ->
      caused_by data w [node_buildTrack encoded]
  | caused_dispatch name e :
      subscript data "type" = Ok name ->
      getEventPayload name data w = (Ok (Some e), w) ->
      caused_by data w [bot_dispatch ("lavapy_" ++ event e) (payload e)]
  | caused_track_dispatch name encoded e :
      subscript data "type" = Ok name ->
      subscript data "track" = Ok encoded ->
      getEventPayload name data w
      = (Ok (Some e), add_call (node_buildTrack encoded) w) ->
      caused_by data w [node_buildTrack encoded;
                        bot_dispatch ("lavapy_" ++ event e) (payload e)].

(** *** [node.players] as a list of references
    A Python list holds references: one [Player] object can be listed more
    than once, and [updateState] changes the object, at every place that
    lists it.  [World] keeps the players by value, one object per entry;
    here the objects live at addresses and [node.players] lists
    addresses. *)
Record Registry : Type := {
  objects : nat -> Player;
  listed : list nat
}.

(** What iterating [node.players] yields. *)
Definition node_players (r : Registry) : list Player := objects r <$> listed r.

(** [getPlayer], returning the object: the first one listed whose guild is
    [guildID]. *)
Definition getPlayer_object (guildID : Z) (r : Registry) : Result nat :=
  match filter (fun a => guild_id (objects r a) = guildID) (listed r) !! 0%nat with
  | Some a => Ok a
  | None => Raise IndexError
  end.

(** The objects after the one at [a] has become [v]. *)
Definition store {A} (a : nat) (v : A) (f : nat -> A) : nat -> A :=
  fun b => if decide (b = a) then v else f b.

(** [player.updateState(data)] on the object at [a]. *)
Definition updateState_object (data : JSON) (a : nat) (r : Registry) : Registry :=
  {| objects := store a {| guild_id := guild_id (objects r a);
                           player_state :=
                             updateState data (player_state (objects r a)) |}
                      (objects r);
     listed := listed r |}.

(** The [playerUpdate] branch of [processListener]:
    [player = self.getPlayer(int(data["guildId"]))], then
    [player.updateState(data)]. *)
Definition playerUpdate_objects (data : JSON) (r : Registry) : Result unit * Registry :=
  match subscript data "guildId" with
  | Raise e => (Raise e, r)
  | Ok guildId =>
      match int guildId with
      | Raise e => (Raise e, r)
      | Ok guildID =>
          match getPlayer_object guildID r with
          | Raise e => (Raise e, r)
          | Ok a => (Ok tt, updateState_object data a r)
          end
      end
  end.

(** The handle [connect] stores. *)
Definition listener_task : Task :=
  {| coro := co_listener; cancel_requested := false |}.

(** What every method keeps true of the attributes. *)
Definition consistent (s : Websocket) : Prop :=
  open s = connected s
  /\ (connected s = true -> is_Some (connection s))
  /\ (connection s = None <-> _listener s = None)
  /\ (forall t, _listener s = Some t -> t = listener_task).

(** The worlds an instance can be in: made by [__init__], then any of its
    methods, with any outcome of the handshake and any incoming messages. *)
Inductive reachable : World -> Prop :=
  | reachable_init n ps : reachable (__init__ n ps)
  | reachable_connect h w : reachable w -> reachable (snd (connect h w))
  | reachable_disconnect w : reachable w -> reachable (snd (disconnect w))
  | reachable_processListener data w :
      reachable w -> reachable (snd (processListener data w))
  | reachable_listener incoming w :
      reachable w -> reachable (snd (listener incoming w)).

End Observations.

(** ** The collaborators as the specification describes them *)

Module SpecModel.

(** Modelled from the spec: [ExponentialBackoff] is declared in
    [lavapy/backoff.py], which is not among the sources.  The
    specification gives it a base delay, a maximum and a count of uses; the
    n-th successive delay, before jitter, is [min (base * 2^(n-1)) max].
    The duration returned here is that bound. *)
Record BackoffState : Type := {
  base : Z;
  maximum : Z;
  uses : nat
}.

Definition fresh (b m : Z) : BackoffState :=
  {| base := b; maximum := m; uses := 0 |}.

Definition bound (s : BackoffState) : Z :=
  Z.min (base s * 2 ^ Z.of_nat (uses s)) (maximum s).

Definition next_delay (s : BackoffState) : Z * BackoffState :=
  (bound s, {| base := base s; maximum := maximum s; uses := S (uses s) |}).

(** The delays of [n] consecutive uses. *)
Fixpoint delays (n : nat) (s : BackoffState) : list Z :=
  match n with
  | O => []
  | S n => fst (next_delay s) :: delays n (snd (next_delay s))
  end.

(** Modelled from the spec: [node.buildTrack] belongs to [lavapy/node.py],
    which is not among the sources.  It resolves an opaque encoded track
    reference and may fail with [TrackBuildError]; here every string is a
    reference that resolves. *)
Record TrackInfo : Type := { encoded : string }.

Definition build (track : JSON) : Result TrackInfo :=
  match track with
  | JStr s => Ok {| encoded := s |}
  | _ => Raise (Custom "TrackBuildError")
  end.

(** The builtin [int] on decoded values.  A string is read as Python
    reads it, for ASCII: blanks around the number are dropped, a sign may
    come first, then come digits, which single underscores may separate.
    (Python also takes the digits and blanks of other scripts, which the
    identifiers sent by the node do not have.) *)
Definition digit (c : ascii) : option Z :=
  let n := Z.of_N (Ascii.N_of_ascii c) in
  if ((48 <=? n)%Z && (n <=? 57)%Z)%bool then Some (n - 48) else None.

Definition is_space (c : ascii) : bool :=
  let n := Z.of_N (Ascii.N_of_ascii c) in
  ((9 <=? n)%Z && (n <=? 13)%Z) || ((28 <=? n)%Z && (n <=? 32)%Z).

Fixpoint lstrip (s : string) : string :=
  match s with
  | EmptyString => EmptyString
  | String c rest => if is_space c then lstrip rest else s
  end.

Definition strip (s : string) : string :=
  String.rev (lstrip (String.rev (lstrip s))).

(** The digits, with [acc] the number read so far; [after_digit] says that
    the character before was a digit, which an underscore and the end of
    the string both need. *)
Fixpoint digits (s : string) (acc : Z) (after_digit : bool) : option Z :=
  match s with
  | EmptyString => if after_digit then Some acc else None
  | String c s =>
      match digit c with
      | Some n => digits s (10 * acc + n) true
      | None =>
          if (bool_decide (c = "_"%char) && after_digit)%bool
          then digits s acc false
          else None
      end
  end.

Definition int_of_str (s : string) : Result Z :=
  let signed :=
    match strip s with
    | String "-"%char s => Z.opp <$> digits s 0 false
    | String "+"%char s => digits s 0 false
    | s => digits s 0 false
    end in
  from_option Ok (Raise ValueError) signed.

Definition py_int (v : JSON) : Result Z :=
  match v with
  | JInt z => Ok z
  | JBool b => Ok (if b then 1 else 0)
  | JStr s => int_of_str s
  | _ => Raise TypeError
  end.

#[global] Instance types : Types := {|
  Track := TrackInfo;
  PlayerState := list JSON;       (* the updates received, latest first *)
  Backoff := BackoffState;
  Duration := Z
|}.

(** Modelled from the spec: the event classes are declared in
    [lavapy/events.py], which is not among the sources.  Each variant has
    a lowercase tag and owns the fields the specification lists for it; the
    guild is named by its identifier. *)
Definition make_event (tag : string) (p : Player) (fields : list (string * PyObject))
  : LavapyEvent :=
  {| event := tag;
     payload := <["guildId" := PyJSON (JInt (guild_id p))]> (list_to_map fields) |}.

Definition field (data : JSON) (key : string) : Result (string * PyObject) :=
  match subscript data key with
  | Ok v => Ok (key, PyJSON v)
  | Raise e => Raise e
  end.

Definition TrackStart (p : Player) (t : TrackInfo) : Result LavapyEvent :=
  Ok (make_event "trackstart" p [("track", PyTrack t)]).

Definition TrackEnd (p : Player) (t : TrackInfo) (data : JSON) : Result LavapyEvent :=
  match field data "reason" with
  | Ok reason => Ok (make_event "trackend" p [("track", PyTrack t); reason])
  | Raise e => Raise e
  end.

Definition TrackException (p : Player) (t : TrackInfo) (data : JSON) : Result LavapyEvent :=
  match field data "error" with
  | Ok error => Ok (make_event "trackexception" p [("track", PyTrack t); error])
  | Raise e => Raise e
  end.

Definition TrackStuck (p : Player) (t : TrackInfo) (data : JSON) : Result LavapyEvent :=
  match field data "thresholdMs" with
  | Ok threshold => Ok (make_event "trackstuck" p [("track", PyTrack t); threshold])
  | Raise e => Raise e
  end.

Definition WebsocketClosed (p : Player) (data : JSON) : Result LavapyEvent :=
  match field data "code", field data "reason", field data "byRemote" with
  | Ok code, Ok reason, Ok byRemote =>
      Ok (make_event "websocketclosed" p [code; reason; byRemote])
  | Raise e, _, _ | _, Raise e, _ | _, _, Raise e => Raise e
  end.

#[global] Instance collaborators : Collaborators := {|
  int := py_int;
  updateState := fun data state => data :: state;
  buildTrack := build;
  ExponentialBackoff := fresh 1 60;
  delay := next_delay;
  WebsocketClosedEvent := WebsocketClosed;
  TrackStartEvent := TrackStart;
  TrackEndEvent := TrackEnd;
  TrackExceptionEvent := TrackException;
  TrackStuckEvent := TrackStuck
|}.

End SpecModel.

(** ** A node, a player and some messages *)

Module Scenario.

Import SpecModel.

Definition lavalink : NodeConfig :=
  {| host := "localhost"; port := 2333; password := "youshallnotpass";
     bot_user_id := 42 |}.

Definition player123 : Player := {| guild_id := 123; player_state := [] |}.

(** The instance right after [Websocket(node)], after its [connect], and
    after a [disconnect] that follows. *)
Definition created : World := __init__ lavalink [player123].
Definition connected_world : World := snd (connect (Ok ws_open) created).
Definition disconnected_world : World := snd (disconnect connected_world).

Definition text (fields : list (string * JSON)) : WSMessage :=
  {| type := TEXT; json := Ok (JDict (list_to_map fields)) |}.

(** A CLOSED message carries no data: decoding it is a [TypeError]. *)
Definition closed : WSMessage := {| type := CLOSED; json := Raise TypeError |}.

Definition update_guild7 : list (string * JSON) :=
  [("op", JStr "playerUpdate"); ("guildId", JStr "7");
   ("state", JDict {["position" := JInt 0]})].

Definition stats : list (string * JSON) :=
  [("op", JStr "stats"); ("players", JInt 1)].

Definition foo_event : list (string * JSON) :=
  [("op", JStr "event"); ("type", JStr "FooEvent"); ("guildId", JStr "123");
   ("track", JStr "QAAAjQIAJVJpY2s")].

Definition track_end : list (string * JSON) :=
  [("op", JStr "event"); ("type", JStr "TrackEndEvent"); ("guildId", JStr "123");
   ("track", JStr "QAAAjQIAJVJpY2s"); ("reason", JStr "FINISHED")].

(** What [TrackEndEvent(player, track, data)] is for [track_end]. *)
Definition track_end_event : LavapyEvent :=
  make_event "trackend" player123
             [("track", PyTrack {| encoded := "QAAAjQIAJVJpY2s" |});
              ("reason", PyJSON (JStr "FINISHED"))].

(** A node with two players for guild 123, behind one for guild 7. *)
Definition player7 : Player := {| guild_id := 7; player_state := [] |}.
Definition player123_again : Player := {| guild_id := 123; player_state := [JNull] |}.
Definition crowded : World := __init__ lavalink [player7; player123; player123_again].

Definition update_guild123 : list (string * JSON) :=
  [("op", JStr "playerUpdate"); ("guildId", JStr "123");
   ("state", JDict {["position" := JInt 1500]})].

Definition update_without_guild : list (string * JSON) :=
  [("op", JStr "playerUpdate"); ("state", JDict ∅)].

Definition update_guild_abc : list (string * JSON) :=
  [("op", JStr "playerUpdate"); ("guildId", JStr "abc")].

Definition event_without_type : list (string * JSON) :=
  [("op", JStr "event"); ("track", JStr "QAAAjQIAJVJpY2s")].

Definition event_without_guild : list (string * JSON) :=
  [("op", JStr "event"); ("type", JStr "TrackStartEvent")].

Definition event_without_track : list (string * JSON) :=
  [("op", JStr "event"); ("type", JStr "TrackStartEvent"); ("guildId", JStr "123")].

Definition socket_closed : list (string * JSON) :=
  [("op", JStr "event"); ("type", JStr "WebSocketClosedEvent");
   ("guildId", JStr "123"); ("code", JInt 4006);
   ("reason", JStr "Session is no longer valid."); ("byRemote", JBool true)].

(** A PING message: its data is empty, so decoding it fails. *)
Definition ping : WSMessage := {| type := PING; json := Raise JSONDecodeError |}.

(** Three player objects, the second of them listed twice. *)
Definition heap (a : nat) : Player :=
  match a with
  | 0%nat => player7
  | 1%nat => player123
  | _ => player123_again
  end.
Definition aliased : Registry := {| objects := heap; listed := [0; 1; 2; 1]%nat |}.

(** The calls made from a given point of the log on. *)
Definition calls_since (before after : World) : list Call :=
  drop (length (calls before)) (calls after).

End Scenario.

(** Unfolds the monad so that a method body becomes nested matches. *)
Ltac run_body :=
  unfold dispatchEvent, mbind, M_bind, bind, mret, M_ret, ret, lift, raise, call,
    modify, get in *.


(** ** Properties that hold for every collaborator *)

Section Properties.

Context {types : Types} {collaborators : Collaborators}.

Example str_60 : str 60 = "60".
Proof. reflexivity. Qed.

(** *** The monad *)

Lemma bind_ok {A B} (m : M A) (k : A -> M B) a w w' :
  m w = (Ok a, w') -> (m ≫= k) w = k a w'.
Proof. intros H. unfold mbind, M_bind, bind. by rewrite H. Qed.

Lemma bind_raise {A B} (m : M A) (k : A -> M B) e w w' :
  m w = (Raise e, w') -> (m ≫= k) w = (Raise e, w').
Proof. intros H. unfold mbind, M_bind, bind. by rewrite H. Qed.

Lemma lift_ok {A B} (r : Result A) (k : A -> M B) a w :
  r = Ok a -> (lift r ≫= k) w = k a w.
Proof. intros ->. done. Qed.

Lemma lift_raise {A B} (r : Result A) (k : A -> M B) e w :
  r = Raise e -> (lift r ≫= k) w = (Raise e, w).
Proof. intros ->. done. Qed.

(** *** [getPlayer] *)

Lemma getPlayer_world guildID w r w' :
  getPlayer guildID w = (r, w') -> w' = w.
Proof. unfold getPlayer. case_match; congruence. Qed.

Lemma getPlayer_absent guildID w :
  (forall p, p ∈ players w -> guild_id p <> guildID) ->
  getPlayer guildID w = (Raise IndexError, w).
Proof.
  intros Hnone. unfold getPlayer.
  destruct (filter _ _ !! 0%nat) as [[i p]|] eqn:Hhd; [exfalso | done].
  assert (Hin : (i, p) ∈ filter (fun ip => guild_id (snd ip) = guildID)
                               (imap pair (players w))).
  { apply list_elem_of_lookup. eauto. }
  apply list_elem_of_filter in Hin as [Hgid Hin].
  apply elem_of_lookup_imap in Hin as (j & q & Hpair & Hq).
  injection Hpair as -> ->.
  eapply Hnone; [|exact Hgid]. apply list_elem_of_lookup. eauto.
Qed.

Lemma getPlayer_found guildID w i p w' :
  getPlayer guildID w = (Ok (i, p), w') ->
  players w !! i = Some p /\ guild_id p = guildID /\ w' = w.
Proof.
  unfold getPlayer.
  destruct (filter _ _ !! 0%nat) as [[j q]|] eqn:Hhd; [|discriminate].
  intros [= -> -> <-].
  assert (Hin : (i, p) ∈ filter (fun ip => guild_id (snd ip) = guildID)
                               (imap pair (players w))).
  { apply list_elem_of_lookup. eauto. }
  apply list_elem_of_filter in Hin as [Hgid Hin].
  apply elem_of_lookup_imap in Hin as (j & q & Hpair & Hq).
  injection Hpair as -> ->. done.
Qed.

(** C1 (as the code has it).  A [playerUpdate] message whose guild has no
    registered player makes [processListener] fail, and the failure is the
    [IndexError] of the empty lookup in [getPlayer]; the world is left as
    it was: no [updateState] call, no player changed. *)
Theorem processListener_playerUpdate_unknown_guild
    (d : gmap string JSON) (g : JSON) (guildID : Z) (w : World) :
  d !! "op" = Some (JStr "playerUpdate") ->
  d !! "guildId" = Some g ->
  int g = Ok guildID ->
  (forall p, p ∈ players w -> guild_id p <> guildID) ->
  processListener (JDict d) w = (Raise IndexError, w).
Proof.
  intros Hop Hg Hint Hnone. unfold processListener.
  rewrite (lift_ok _ _ (Some (JStr "playerUpdate"))); [|by cbn; rewrite Hop].
  cbn [from_option eq_str]. rewrite bool_decide_eq_true_2; [|done].
  rewrite (lift_ok _ _ g); [|by cbn; rewrite Hg].
  rewrite (lift_ok _ _ guildID); [|done].
  by apply bind_raise, getPlayer_absent.
Qed.

(** *** [getEventPayload] *)

(** The only call [getEventPayload] can make is one [node.buildTrack]. *)
Lemma getEventPayload_calls name data w r w' :
  getEventPayload name data w = (r, w') ->
  w' = w \/ exists encoded, w' = add_call (node_buildTrack encoded) w.
Proof.
  unfold getEventPayload. run_body. intros H.
  destruct (subscript data "guildId"); [|left; congruence].
  destruct (int _); [|left; congruence].
  destruct (getPlayer _ w) as [[[i p]|e] w1] eqn:Hp;
    apply getPlayer_world in Hp as ->; [|left; congruence].
  destruct (eq_str name "WebSocketClosedEvent").
  { left. destruct (WebsocketClosedEvent _ _); congruence. }
  destruct (subscript data "track") as [encoded|]; [|left; congruence].
  right. exists encoded.
  destruct (buildTrack encoded); [|congruence].
  repeat case_match; congruence.
Qed.

(** C10.  In [getEventPayload] the player is looked up before the event
    name is read: with no player for the guild the coroutine raises the
    lookup's [IndexError] for every name, [WebSocketClosedEvent] included.
    For every name other than [WebSocketClosedEvent], recognised or not,
    [node.buildTrack] is called on [data["track"]] before the name is
    compared with the track events, and a failure of that call is the
    result. *)
Theorem getEventPayload_order (name data g : JSON) (guildID : Z) (w : World) :
  subscript data "guildId" = Ok g ->
  int g = Ok guildID ->
  ((forall p, p ∈ players w -> guild_id p <> guildID) ->
     getEventPayload name data w = (Raise IndexError, w))
  /\ (forall player encoded,
        getPlayer guildID w = (Ok player, w) ->
        eq_str name "WebSocketClosedEvent" = false ->
        subscript data "track" = Ok encoded ->
        exists r, getEventPayload name data w
                    = (r, add_call (node_buildTrack encoded) w)
                  /\ (forall e, buildTrack encoded = Raise e -> r = Raise e)).
Proof.
  intros Hg Hint. split.
  - intros Hnone. unfold getEventPayload.
    rewrite (lift_ok _ _ g) by done. rewrite (lift_ok _ _ guildID) by done.
    by apply bind_raise, getPlayer_absent.
  - intros player encoded Hp Hname Htrack. unfold getEventPayload.
    rewrite (lift_ok _ _ g) by done. rewrite (lift_ok _ _ guildID) by done.
    rewrite (bind_ok _ _ player w w) by done. rewrite Hname.
    rewrite (lift_ok _ _ encoded) by done. run_body.
    destruct (buildTrack encoded) as [track|e0].
    + repeat case_match; simplify_eq; eexists; (split; [done | intros; discriminate]).
    + eexists; split; [done | congruence].
Qed.

(** C5 (what the code does).  With a resolvable player and a track that
    builds, an event name that is none of the five makes
    [getEventPayload] return [None]: nothing is raised there.  The caller
    then reads [event.event] on [None], and [processListener] ends with
    that [AttributeError]. *)
Theorem getEventPayload_unrecognized_name
    (d : gmap string JSON) (name g encoded : JSON) (guildID : Z)
    (player : nat * Player) (track : Track) (w : World) :
  d !! "op" = Some (JStr "event") ->
  d !! "type" = Some name ->
  eq_str name "WebSocketClosedEvent" = false ->
  eq_str name "TrackStartEvent" = false ->
  eq_str name "TrackEndEvent" = false ->
  eq_str name "TrackExceptionEvent" = false ->
  eq_str name "TrackStuckEvent" = false ->
  d !! "guildId" = Some g ->
  int g = Ok guildID ->
  getPlayer guildID w = (Ok player, w) ->
  d !! "track" = Some encoded ->
  buildTrack encoded = Ok track ->
  getEventPayload name (JDict d) w = (Ok None, add_call (node_buildTrack encoded) w)
  /\ processListener (JDict d) w
     = (Raise (AttributeError "event"), add_call (node_buildTrack encoded) w).
Proof.
  intros Hop Hty H1 H2 H3 H4 H5 Hg Hint Hp Htr Hbuild.
  assert (Hbuilt : getEventPayload name (JDict d) w
                   = (Ok None, add_call (node_buildTrack encoded) w)).
  { unfold getEventPayload.
    rewrite (lift_ok _ _ g) by (by cbn; rewrite Hg).
    rewrite (lift_ok _ _ guildID) by done.
    rewrite (bind_ok _ _ player w w) by done. rewrite H1.
    rewrite (lift_ok _ _ encoded) by (by cbn; rewrite Htr).
    run_body. rewrite Hbuild, H2, H3, H4, H5. done. }
  split; [done|]. unfold processListener.
  rewrite (lift_ok _ _ (Some (JStr "event"))) by (by cbn; rewrite Hop).
  cbn [from_option eq_str].
  rewrite bool_decide_eq_false_2 by done. rewrite bool_decide_eq_true_2 by done.
  rewrite (lift_ok _ _ name) by (by cbn; rewrite Hty).
  by rewrite (bind_ok _ _ None w (add_call (node_buildTrack encoded) w)).
Qed.

(** C7.  When [getEventPayload] has built an event, [processListener]
    calls [bot.dispatch] once, after everything else: the name is
    ["lavapy_"] followed by the event's [event] attribute, and the keyword
    arguments are the event's [payload]. *)
Theorem processListener_event_dispatch
    (d : gmap string JSON) (name : JSON) (e : LavapyEvent) (w w1 : World) :
  d !! "op" = Some (JStr "event") ->
  d !! "type" = Some name ->
  getEventPayload name (JDict d) w = (Ok (Some e), w1) ->
  processListener (JDict d) w
    = (Ok tt, add_call (bot_dispatch ("lavapy_" ++ event e) (payload e)) w1)
  /\ exists before, calls w1 = (calls w ++ before)%list
                    /\ forall n k, bot_dispatch n k ∉ before.
Proof.
  intros Hop Hty Hbuilt. split.
  - unfold processListener.
    rewrite (lift_ok _ _ (Some (JStr "event"))) by (by cbn; rewrite Hop).
    cbn [from_option eq_str].
    rewrite bool_decide_eq_false_2 by done. rewrite bool_decide_eq_true_2 by done.
    rewrite (lift_ok _ _ name) by (by cbn; rewrite Hty).
    by rewrite (bind_ok _ _ (Some e) w w1).
  - apply getEventPayload_calls in Hbuilt as [->|[encoded ->]].
    + exists []. split; [by rewrite app_nil_r | intros n k; apply not_elem_of_nil].
    + exists [node_buildTrack encoded]. split; [done|].
      intros n k Hin%list_elem_of_singleton. discriminate.
Qed.

(** *** [processListener] *)

Lemma processListener_calls data w r w' :
  processListener data w = (r, w') ->
  exists made, calls w' = (calls w ++ made)%list /\ Forall message_call made.
Proof.
  unfold processListener. run_body. intros H.
  assert (Hnil : exists made, calls w = (calls w ++ made)%list
                              /\ Forall message_call made).
  { exists []. by rewrite app_nil_r. }
  destruct (dict_get data "op") as [op|]; [|simplify_eq; done].
  destruct (from_option _ false op).
  { destruct (subscript data "guildId"); [|simplify_eq; done].
    destruct (int _); [|simplify_eq; done].
    destruct (getPlayer _ w) as [[[i p]|e] w1] eqn:Hp;
      apply getPlayer_world in Hp as ->; simplify_eq; [|done].
    exists [player_updateState i data]. split; [done|].
    by repeat constructor. }
  destruct (from_option _ false op); [|repeat case_match; simplify_eq; done].
  destruct (subscript data "type") as [name|]; [|simplify_eq; done].
  destruct (getEventPayload name data w) as [[[e|]|e] w1] eqn:Hb;
    apply getEventPayload_calls in Hb; simplify_eq.
  - destruct Hb as [->|[encoded ->]].
    + exists [bot_dispatch ("lavapy_" ++ event e) (payload e)].
      split; [done | by repeat constructor].
    + exists [node_buildTrack encoded; bot_dispatch ("lavapy_" ++ event e) (payload e)].
      split; [by cbn; rewrite <- app_assoc | by repeat constructor].
  - destruct Hb as [->|[encoded ->]]; [done|].
    exists [node_buildTrack encoded]. split; [done | by repeat constructor].
  - destruct Hb as [->|[encoded ->]]; [done|].
    exists [node_buildTrack encoded]. split; [done | by repeat constructor].
Qed.


(** *** [listener] *)


Lemma message_call_no_delay c : message_call c -> delay_on_fresh_backoff c.
Proof. by destruct c. Qed.

Lemma add_call_Forall (P : Call -> Prop) c w :
  Forall P (calls w) -> P c -> Forall P (calls (add_call c w)).
Proof. intros Hw Hc. cbn. apply Forall_app. by repeat constructor. Qed.

Lemma listener_delay_on_fresh_backoff incoming w :
  Forall delay_on_fresh_backoff (calls w) ->
  Forall delay_on_fresh_backoff (calls (snd (listener incoming w))).
Proof.
  revert w.
  induction incoming as [|[msg|e] incoming IH]; intros w Hw; cbn [listener snd];
    try (by repeat apply add_call_Forall).
  destruct (type msg); try (by apply IH; repeat apply add_call_Forall).
  destruct (json msg) as [data|e]; [|by repeat apply add_call_Forall].
  destruct (processListener data _) as [[[]|e] w'] eqn:Hp;
    apply processListener_calls in Hp as (made & Hcalls & Hmade);
    [apply IH|cbn [snd]]; rewrite Hcalls;
    (apply Forall_app; split;
     [by repeat apply add_call_Forall
     |by eapply Forall_impl; [exact Hmade | apply message_call_no_delay]]).
Qed.

(** C4 (as the code has it).  One CLOSED message and nothing after it:
    [delay] is computed once, on a fresh backoff, and the coroutine sleeps
    for it; then the loop is back in [receive] on the same connection.
    It does not stop and it does not connect again. *)
Theorem listener_single_closed_frame (msg : WSMessage) (w : World) :
  type msg = CLOSED ->
  listener [Ok msg] w =
    (Awaiting,
     {| node := node w; self := self w; players := players w;
        calls := calls w ++ [new_backoff; connection_receive;
                             backoff_delay ExponentialBackoff;
                             sleep (fst (delay ExponentialBackoff));
                             new_backoff; connection_receive] |}).
Proof.
  intros Hty. cbn [listener]. rewrite Hty. unfold add_call. cbn.
  by rewrite <- !app_assoc.
Qed.

(** On a connection that only yields CLOSED messages the loop never
    ends. *)
Lemma listener_closed_frames (msgs : list WSMessage) (w : World) :
  Forall (fun m => type m = CLOSED) msgs ->
  fst (listener (Ok <$> msgs) w) = Awaiting.
Proof.
  intros Hall. revert w. induction Hall as [|m msgs Hm _ IH]; intros w; [done|].
  cbn [fmap list_fmap listener]. rewrite Hm. apply IH.
Qed.

(** *** [connect] and [disconnect] *)

(** C8.  [connect] calls [ws_connect] on [ws://host:port] with the three
    headers (the node's password, the bot user's id, the client name
    ["Lavapy"]) and a heartbeat of 60, whatever comes of it.  When the
    handshake succeeds it keeps the connection, starts the listener task,
    and sets [connected] and [open]; when it fails the exception is the
    caller's and the instance is as before. *)
Theorem connect_handshake (h : Result ClientWebSocketResponse) (w : World) :
  let opening :=
    ws_connect ("ws://" ++ host (node w) ++ ":" ++ str (port (node w)))
               [("Authorization", password (node w));
                ("User-Id", str (bot_user_id (node w)));
                ("Client-Name", "Lavapy")]
               60 in
  match h with
  | Ok c =>
      connect h w =
        (Ok tt,
         {| node := node w;
            self := {| open := true; connected := true; connection := Some c;
                       _listener := Some {| coro := co_listener;
                                            cancel_requested := false |} |};
            players := players w;
            calls := calls w ++ [opening; create_task co_listener] |})
  | Raise e =>
      connect h w =
        (Raise e,
         {| node := node w; self := self w; players := players w;
            calls := calls w ++ [opening] |})
  end.
Proof.
  destruct h as [c|e]; unfold connect; run_body; unfold add_call, set_self; cbn.
  - by rewrite <- app_assoc.
  - done.
Qed.

(** C9 (what the code does).  An instance that never got a connection is
    disconnected ([connected] and [open] are false), and [disconnect] on
    it raises: [self.connection] is [None] and has no [close]. *)
Theorem disconnect_never_connected (n : NodeConfig) (ps : list Player) :
  isConnected (__init__ n ps) = false
  /\ disconnect (__init__ n ps) = (Raise (AttributeError "close"), __init__ n ps).
Proof. done. Qed.

(** After a [disconnect] that returned, a second one returns too and
    changes no attribute. *)
Lemma disconnect_again (w w1 : World) :
  disconnect w = (Ok tt, w1) ->
  exists w2, disconnect w1 = (Ok tt, w2) /\ self w2 = self w1.
Proof.
  unfold disconnect. run_body.
  destruct (connection (self w)); cbn; [|discriminate].
  intros [= <-]. cbn. eauto.
Qed.

(** The exact run of the loop on a connection that only yields CLOSED
    messages. *)
Lemma listener_closed_log (msgs : list WSMessage) (w : World) :
  Forall (fun m => type m = CLOSED) msgs ->
  listener (Ok <$> msgs) w =
    (Awaiting,
     {| node := node w; self := self w; players := players w;
        calls := calls w ++ closed_rounds (length msgs)
                 ++ [new_backoff; connection_receive] |}).
Proof.
  intros Hall. revert w. induction Hall as [|m msgs Hm _ IH]; intros w.
  - cbn [fmap list_fmap listener length]. unfold add_call, closed_rounds. cbn.
    by rewrite <- app_assoc.
  - cbn [fmap list_fmap listener length]. rewrite Hm, IH.
    unfold add_call, closed_rounds, closed_round. cbn. by rewrite <- !app_assoc.
Qed.

(** C6 (as the code has it).  On an instance that has a connection,
    [disconnect] returns after one call, [connection.close()], with the
    connection closed and both flags cleared; it does not act on the
    listener task: the handle in [_listener] is the one that was there,
    not cancelled.  The coroutine stays in its loop: on the closed
    connection each CLOSED message it receives costs one backoff delay and
    one sleep, the next [receive] follows, and after any number of them the
    loop is waiting in [receive]. *)
Theorem disconnect_leaves_listener
    (c : ClientWebSocketResponse) (w : World) (msgs : list WSMessage) :
  connection (self w) = Some c ->
  Forall (fun m => type m = CLOSED) msgs ->
  let closed_self := {| open := false; connected := false;
                        connection := Some ws_closed;
                        _listener := _listener (self w) |} in
  let w' := {| node := node w; self := closed_self; players := players w;
               calls := calls w ++ [connection_close] |} in
  disconnect w = (Ok tt, w')
  /\ listener (Ok <$> msgs) w' =
       (Awaiting,
        {| node := node w; self := closed_self; players := players w;
           calls := calls w ++ [connection_close]
                    ++ closed_rounds (length msgs)
                    ++ [new_backoff; connection_receive] |}).
Proof.
  intros Hc Hall. cbv zeta. split.
  - unfold disconnect. run_body. by rewrite Hc.
  - rewrite listener_closed_log by done. cbn. by rewrite <- app_assoc.
Qed.

End Properties.

(** ** More of the class: lookups, messages, the loop, the connection *)

Section Lookup.

Context {types : Types} {collaborators : Collaborators}.

(** The head of the comprehension is the first player of the guild. *)
Lemma first_match_lookup (guildID : Z) (ps : list Player) (k n : nat) (p : Player) :
  filter (fun ip : nat * Player => guild_id (snd ip) = guildID)
         (imap (fun i x => ((k + i)%nat, x)) ps) !! 0%nat = Some (n, p)
  <-> exists i, n = (k + i)%nat /\ ps !! i = Some p /\ guild_id p = guildID
                /\ forall j q, (j < i)%nat -> ps !! j = Some q -> guild_id q <> guildID.
Proof.
  revert k. induction ps as [|x ps IH]; intros k.
  - cbn. split; [discriminate | intros (i & _ & Hi & _); discriminate].
  - rewrite imap_cons.
    rewrite (imap_ext _ (fun i y => ((S k + i)%nat, y)))
      by (intros; cbn; f_equal; lia).
    destruct (decide (guild_id x = guildID)) as [Hx|Hx].
    + rewrite filter_cons_True by done. cbn [lookup list_lookup]. split.
      * intros [= <- <-]. exists 0%nat.
        split_and!; [lia | done | done | intros j q Hj; lia].
      * intros ([|i] & -> & Hi & Hp & Hfirst).
        -- cbn in Hi. by injection Hi as <-.
        -- destruct (Hfirst 0%nat x); [lia | done | done].
    + rewrite filter_cons_False by done. rewrite IH. split.
      * intros (i & -> & Hi & Hp & Hfirst). exists (S i).
        split_and!; [lia | done | done |].
        intros [|j] q Hj Hq; [cbn in Hq; congruence|].
        apply (Hfirst j); [lia | done].
      * intros ([|i] & -> & Hi & Hp & Hfirst).
        -- cbn in Hi. congruence.
        -- exists i. split_and!; [lia | done | done |].
           intros j q Hj Hq. apply (Hfirst (S j)); [lia | done].
Qed.

Lemma getPlayer_first (guildID : Z) (w : World) (i : nat) (p : Player) :
  players w !! i = Some p -> guild_id p = guildID ->
  (forall j q, (j < i)%nat -> players w !! j = Some q -> guild_id q <> guildID) ->
  getPlayer guildID w = (Ok (i, p), w).
Proof.
  intros Hi Hp Hfirst. unfold getPlayer.
  assert (Heq : filter (fun ip : nat * Player => guild_id (snd ip) = guildID)
                       (imap pair (players w)) !! 0%nat = Some (i, p)).
  { apply (proj2 (first_match_lookup guildID (players w) 0 i p)). exists i. done. }
  by rewrite Heq.
Qed.

(** X1.  [getPlayer] returns the first player of [node.players] whose
    guild is the one asked for, and only that one: with several players
    for one guild, those behind the first are never returned. *)
Theorem getPlayer_first_match (guildID : Z) (w : World) (i : nat) (p : Player) :
  getPlayer guildID w = (Ok (i, p), w)
  <-> players w !! i = Some p /\ guild_id p = guildID
      /\ forall j q, (j < i)%nat -> players w !! j = Some q -> guild_id q <> guildID.
Proof.
  split.
  - unfold getPlayer.
    destruct (filter _ _ !! 0%nat) as [[j q]|] eqn:Heq; [|discriminate].
    intros [= -> ->].
    destruct (proj1 (first_match_lookup guildID (players w) 0 i p) Heq)
      as (i' & -> & Hrest).
    done.
  - intros (Hi & Hp & Hfirst). by apply getPlayer_first.
Qed.

(** X2.  [getPlayer] raises [IndexError] exactly when no registered player
    has the guild; it raises nothing else. *)
Theorem getPlayer_IndexError_iff (guildID : Z) (w : World) :
  (getPlayer guildID w = (Raise IndexError, w)
   <-> forall p, p ∈ players w -> guild_id p <> guildID)
  /\ (forall e w', getPlayer guildID w = (Raise e, w') -> e = IndexError).
Proof.
  split; [split|].
  - intros Hraise p Hin Hp.
    apply list_elem_of_lookup in Hin as [i Hi].
    unfold getPlayer in Hraise.
    destruct (filter (fun ip : nat * Player => guild_id (snd ip) = guildID)
                     (imap pair (players w))) as [|y l] eqn:Heq; [|discriminate].
    eapply (filter_nil_not_elem_of _ _ (i, p)); [exact Heq | exact Hp |].
    by apply (elem_of_lookup_imap_2 pair).
  - apply getPlayer_absent.
  - unfold getPlayer. intros e w'. case_match; congruence.
Qed.

End Lookup.

Section Messages.

Context {types : Types} {collaborators : Collaborators}.

Lemma alter_as_insert {A} (f : A -> A) (l : list A) (i : nat) (x : A) :
  l !! i = Some x -> alter f i l = <[i := f x]> l.
Proof.
  intros Hi. apply list_eq. intros j. destruct (decide (i = j)) as [<-|Hne].
  - rewrite list_lookup_alter_eq, Hi.
    by rewrite list_lookup_insert_eq by (by eapply lookup_lt_Some).
  - by rewrite list_lookup_alter_ne, list_lookup_insert_ne.
Qed.

(** What [processListener] leaves alone, whatever the message and the
    outcome. *)
Lemma processListener_frame data w r w' :
  processListener data w = (r, w') ->
  node w' = node w /\ self w' = self w
  /\ guild_id <$> players w' = guild_id <$> players w.
Proof.
  unfold processListener. run_body. intros H.
  destruct (dict_get data "op") as [op|]; [|by simplify_eq].
  destruct (from_option _ false op).
  { destruct (subscript data "guildId"); [|by simplify_eq].
    destruct (int _); [|by simplify_eq].
    destruct (getPlayer _ w) as [[[i p]|e] w1] eqn:Hp;
      apply getPlayer_world in Hp as ->; simplify_eq; [|done].
    cbn. split_and!; [done | done |].
    rewrite (list_fmap_alter guild_id _ id); [by apply list_alter_id|].
    by apply Forall_forall. }
  destruct (from_option _ false op); [|repeat case_match; by simplify_eq].
  destruct (subscript data "type") as [name|]; [|by simplify_eq].
  destruct (getEventPayload name data w) as [[[e|]|e] w1] eqn:Hb;
    apply getEventPayload_calls in Hb as [->|[encoded ->]]; by simplify_eq.
Qed.

Lemma processListener_made data w r w' :
  processListener data w = (r, w') ->
  exists made, calls w' = (calls w ++ made)%list /\ message_calls data made
               /\ (forall e, r = Raise e ->
                     players w' = players w
                     /\ (made = [] \/ exists encoded, made = [node_buildTrack encoded])).
Proof.
  unfold processListener. run_body. intros H.
  assert (Hnil : forall r0 : Result unit, exists made,
             calls w = (calls w ++ made)%list /\ message_calls data made
             /\ (forall e, r0 = Raise e ->
                   players w = players w
                   /\ (made = [] \/ exists encoded, made = [node_buildTrack encoded]))).
  { intros r0. exists []. rewrite app_nil_r. split_and!; [done | constructor | auto]. }
  assert (Htrack : forall (r0 : Result unit) encoded, exists made,
             calls (add_call (node_buildTrack encoded) w) = (calls w ++ made)%list
             /\ message_calls data made
             /\ (forall e, r0 = Raise e ->
                   players (add_call (node_buildTrack encoded) w) = players w
                   /\ (made = [] \/ exists encoded, made = [node_buildTrack encoded]))).
  { intros r0 encoded. exists [node_buildTrack encoded].
    split_and!; [done | constructor | eauto]. }
  destruct (dict_get data "op") as [op|]; [|by simplify_eq].
  destruct (from_option _ false op).
  { destruct (subscript data "guildId"); [|by simplify_eq].
    destruct (int _); [|by simplify_eq].
    destruct (getPlayer _ w) as [[[i p]|e] w1] eqn:Hp;
      apply getPlayer_world in Hp as ->; simplify_eq; [|done].
    exists [player_updateState i data]. split_and!; [done | constructor | discriminate]. }
  destruct (from_option _ false op); [|repeat case_match; by simplify_eq].
  destruct (subscript data "type") as [name|]; [|by simplify_eq].
  destruct (getEventPayload name data w) as [[[e|]|e] w1] eqn:Hb;
    apply getEventPayload_calls in Hb as [->|[encoded ->]]; simplify_eq; try done.
  - exists [bot_dispatch ("lavapy_" ++ event e) (payload e)].
    split_and!; [done | constructor | discriminate].
  - exists [node_buildTrack encoded; bot_dispatch ("lavapy_" ++ event e) (payload e)].
    split_and!; [by cbn; rewrite <- app_assoc | constructor | discriminate].
Qed.

(** In [World], where every entry of [players] is an object of its own, a
    [playerUpdate] changes the entry of the first player of the guild. *)
Lemma processListener_playerUpdate_entry
    (d : gmap string JSON) (g : JSON) (guildID : Z) (i : nat) (p : Player) (w : World) :
  d !! "op" = Some (JStr "playerUpdate") ->
  d !! "guildId" = Some g ->
  int g = Ok guildID ->
  players w !! i = Some p ->
  guild_id p = guildID ->
  (forall j q, (j < i)%nat -> players w !! j = Some q -> guild_id q <> guildID) ->
  processListener (JDict d) w =
    (Ok tt,
     {| node := node w; self := self w;
        players := <[i := {| guild_id := guild_id p;
                             player_state := updateState (JDict d) (player_state p) |}]>
                     (players w);
        calls := calls w ++ [player_updateState i (JDict d)] |}).
Proof.
  intros Hop Hg Hint Hi Hp Hfirst. unfold processListener.
  rewrite (lift_ok _ _ (Some (JStr "playerUpdate"))) by (by cbn; rewrite Hop).
  cbn [from_option eq_str]. rewrite bool_decide_eq_true_2 by done.
  rewrite (lift_ok _ _ g) by (by cbn; rewrite Hg).
  rewrite (lift_ok _ _ guildID) by done.
  rewrite (bind_ok _ _ (i, p) w w) by (by apply getPlayer_first).
  run_body. unfold set_players, add_call. cbn.
  by rewrite (alter_as_insert _ _ _ p).
Qed.

(** The first element that passes a filter is the head of the filtered
    list. *)
Lemma filter_first {A} (P : A -> Prop) `{!forall x, Decision (P x)}
    (l : list A) (i : nat) (x : A) :
  l !! i = Some x -> P x ->
  (forall j y, (j < i)%nat -> l !! j = Some y -> ~ P y) ->
  filter P l !! 0%nat = Some x.
Proof.
  revert i. induction l as [|y l IH]; intros i Hi Hx Hfirst; [done|].
  destruct i as [|i].
  - injection Hi as ->. by rewrite filter_cons_True.
  - rewrite filter_cons_False by (apply (Hfirst 0%nat); [lia | done]).
    apply (IH i); [done | done |].
    intros j z Hj Hz. apply (Hfirst (S j)); [lia | done].
Qed.

(** With no address listed twice, changing the object at one address
    changes one entry of what the list yields. *)
Lemma store_same {A} (f : nat -> A) (a : nat) (v : A) : store a v f a = v.
Proof. unfold store. by rewrite decide_True. Qed.

Lemma store_other {A} (f : nat -> A) (a b : nat) (v : A) :
  b <> a -> store a v f b = f b.
Proof. intros Hne. unfold store. by rewrite decide_False. Qed.

Lemma fmap_store_NoDup {A} (f : nat -> A) (l : list nat) (i a : nat) (v : A) :
  NoDup l -> l !! i = Some a ->
  store a v f <$> l = <[i := v]> (f <$> l).
Proof.
  intros Hnodup Hi. apply list_eq. intros j.
  rewrite list_lookup_fmap. destruct (decide (i = j)) as [<-|Hne].
  - rewrite Hi. cbn. rewrite store_same.
    rewrite list_lookup_insert_eq; [done|].
    rewrite length_fmap. by eapply lookup_lt_Some.
  - rewrite list_lookup_insert_ne by done. rewrite list_lookup_fmap.
    destruct (l !! j) as [b|] eqn:Hj; [|done]. cbn.
    rewrite store_other; [done|].
    intros ->. apply Hne. by eapply NoDup_lookup.
Qed.

(** X3.  A [playerUpdate] for a guild that has a player calls
    [updateState] on the first listed object of that guild, the one
    [getPlayer] returns.  The object's state becomes
    [updateState data state], and this shows at every place of
    [node.players] that lists the object; places that list another object
    are as before.  When no object is listed twice, this is one changed
    entry, and it is what [processListener] computes on the players by
    value. *)
Theorem processListener_playerUpdate_first_player
    (d : gmap string JSON) (g : JSON) (guildID : Z) (i a : nat) (r : Registry) :
  d !! "guildId" = Some g ->
  int g = Ok guildID ->
  listed r !! i = Some a ->
  guild_id (objects r a) = guildID ->
  (forall j b, (j < i)%nat -> listed r !! j = Some b ->
               guild_id (objects r b) <> guildID) ->
  let updated := {| guild_id := guild_id (objects r a);
                    player_state :=
                      updateState (JDict d) (player_state (objects r a)) |} in
  let r' := updateState_object (JDict d) a r in
  playerUpdate_objects (JDict d) r = (Ok tt, r')
  /\ (forall j, listed r !! j = Some a -> node_players r' !! j = Some updated)
  /\ (forall j b, listed r !! j = Some b -> b <> a ->
                  node_players r' !! j = Some (objects r b))
  /\ (NoDup (listed r) ->
      forall w, players w = node_players r ->
                d !! "op" = Some (JStr "playerUpdate") ->
                fst (processListener (JDict d) w) = Ok tt
                /\ players (snd (processListener (JDict d) w)) = node_players r').
Proof.
  intros Hg Hint Hi Ha Hfirst. cbv zeta. split_and!.
  - unfold playerUpdate_objects, getPlayer_object. cbn. rewrite Hg, Hint.
    by rewrite (filter_first _ _ i a).
  - intros j Hj. unfold node_players, updateState_object. cbn.
    rewrite list_lookup_fmap, Hj. cbn. by rewrite store_same.
  - intros j b Hj Hne. unfold node_players, updateState_object. cbn.
    rewrite list_lookup_fmap, Hj. cbn. by rewrite store_other.
  - intros Hnodup w Hw Hop.
    rewrite (processListener_playerUpdate_entry d g guildID i (objects r a) w);
      [| done | done | done | | done |].
    + cbn. split; [done|]. unfold node_players, updateState_object. cbn.
      rewrite Hw. unfold node_players. symmetry. by apply fmap_store_NoDup.
    + rewrite Hw. unfold node_players. by rewrite list_lookup_fmap, Hi.
    + intros j q Hj Hq. rewrite Hw in Hq. unfold node_players in Hq.
      rewrite list_lookup_fmap in Hq.
      destruct (listed r !! j) as [b|] eqn:Hb; [|done].
      injection Hq as <-. by apply (Hfirst j).
Qed.

(** X4.  No message adds, removes, reorders or re-keys a player, and none
    touches the attributes of the instance: after [processListener], with
    any result, the guild ids of [node.players] are the same list, and
    [self] and [node] are unchanged. *)
Theorem processListener_keeps_registry (data : JSON) (w : World) :
  guild_id <$> players (snd (processListener data w)) = guild_id <$> players w
  /\ self (snd (processListener data w)) = self w
  /\ node (snd (processListener data w)) = node w.
Proof.
  destruct (processListener data w) as [r w'] eqn:Hp.
  apply processListener_frame in Hp as (? & ? & ?). done.
Qed.

(** The one call of [getEventPayload] is on the message's ["track"]. *)
Lemma getEventPayload_track_call name data w r w' :
  getEventPayload name data w = (r, w') ->
  w' = w
  \/ exists encoded, subscript data "track" = Ok encoded
                     /\ w' = add_call (node_buildTrack encoded) w.
Proof.
  unfold getEventPayload. run_body. intros H.
  destruct (subscript data "guildId"); [|left; congruence].
  destruct (int _); [|left; congruence].
  destruct (getPlayer _ w) as [[[i p]|e] w1] eqn:Hp;
    apply getPlayer_world in Hp as ->; [|left; congruence].
  destruct (eq_str name "WebSocketClosedEvent").
  { left. destruct (WebsocketClosedEvent _ _); congruence. }
  destruct (subscript data "track") as [encoded|]; [|left; congruence].
  right. exists encoded. split; [done|].
  destruct (buildTrack encoded); [|congruence].
  repeat case_match; congruence.
Qed.

(** X5.  One message causes at most one [updateState], one [buildTrack]
    and one dispatch, and in no other combination than: nothing; one
    [updateState], on the player [getPlayer] returned for the message's
    guild; one [buildTrack], on the message's ["track"]; one dispatch; one
    [buildTrack] then one dispatch.  A dispatch is of the event that
    [getEventPayload] built from this message: its name is ["lavapy_"]
    followed by that event's [event], its arguments that event's
    [payload]. *)
Theorem processListener_call_budget (data : JSON) (w : World) :
  exists made,
    calls (snd (processListener data w)) = (calls w ++ made)%list
    /\ caused_by data w made.
Proof.
  assert (Hnil : exists made, calls w = (calls w ++ made)%list /\ caused_by data w made).
  { exists []. rewrite app_nil_r. split; [done | constructor]. }
  unfold processListener. run_body.
  destruct (dict_get data "op") as [op|]; [|done].
  destruct (from_option _ false op).
  { destruct (subscript data "guildId") as [g|] eqn:Hg; [|done].
    destruct (int g) as [guildID|] eqn:Hint; [|done].
    destruct (getPlayer guildID w) as [[[i p]|e] w1] eqn:Hp;
      pose proof (getPlayer_world _ _ _ _ Hp) as ->; [|done].
    exists [player_updateState i data]. split; [done|].
    by apply (caused_update data w g guildID i p). }
  destruct (from_option _ false op); [|by repeat case_match].
  destruct (subscript data "type") as [name|] eqn:Hty; [|done].
  destruct (getEventPayload name data w) as [[[e|]|e] w1] eqn:Hb;
    pose proof (getEventPayload_track_call _ _ _ _ _ Hb) as [->|(encoded & Htr & ->)];
    try done.
  - exists [bot_dispatch ("lavapy_" ++ event e) (payload e)].
    split; [done | by apply (caused_dispatch data w name e)].
  - exists [node_buildTrack encoded; bot_dispatch ("lavapy_" ++ event e) (payload e)].
    split; [by cbn; rewrite <- app_assoc|].
    by apply (caused_track_dispatch data w name encoded e).
  - exists [node_buildTrack encoded]. split; [done | by constructor].
  - exists [node_buildTrack encoded]. split; [done | by constructor].
Qed.

(** X6.  A message whose processing raises has changed no player and has
    dispatched nothing: the only call it can have made is the one
    [buildTrack]. *)
Theorem processListener_failure_changes_nothing
    (data : JSON) (w w' : World) (e : exn) :
  processListener data w = (Raise e, w') ->
  players w' = players w /\ self w' = self w
  /\ (calls w' = calls w
      \/ exists encoded, calls w' = (calls w ++ [node_buildTrack encoded])%list).
Proof.
  intros Hp. pose proof (processListener_frame _ _ _ _ Hp) as (_ & Hself & _).
  apply processListener_made in Hp as (made & Hcalls & _ & Hraise).
  destruct (Hraise e eq_refl) as (Hplayers & [->|[encoded ->]]).
  - rewrite app_nil_r in Hcalls. auto.
  - eauto.
Qed.

End Messages.

Section Events.

Context {types : Types} {collaborators : Collaborators}.

(** X7.  A [playerUpdate] whose guild cannot be read fails before any
    lookup: without a ["guildId"] field with [KeyError], and with one that
    [int] refuses with [int]'s exception; nothing is changed or called. *)
Theorem processListener_playerUpdate_bad_guildId (d : gmap string JSON) (w : World) :
  d !! "op" = Some (JStr "playerUpdate") ->
  (d !! "guildId" = None ->
     processListener (JDict d) w = (Raise (KeyError "guildId"), w))
  /\ (forall g e, d !! "guildId" = Some g -> int g = Raise e ->
        processListener (JDict d) w = (Raise e, w)).
Proof.
  intros Hop. split.
  - intros Hg. unfold processListener. run_body. cbn. by rewrite Hop, Hg.
  - intros g e Hg Hint. unfold processListener. run_body. cbn.
    by rewrite Hop, Hg, Hint.
Qed.

(** X8.  An [event] message is read in this order: ["type"], then
    ["guildId"].  Without a ["type"] field it fails with [KeyError] on
    ["type"], also when ["guildId"] is missing too; with a type and no
    ["guildId"] it fails with [KeyError] on ["guildId"], whatever the type
    is.  Nothing is changed or called. *)
Theorem processListener_event_missing_field (d : gmap string JSON) (w : World) :
  d !! "op" = Some (JStr "event") ->
  (d !! "type" = None ->
     processListener (JDict d) w = (Raise (KeyError "type"), w))
  /\ (is_Some (d !! "type") -> d !! "guildId" = None ->
        processListener (JDict d) w = (Raise (KeyError "guildId"), w)).
Proof.
  intros Hop. split.
  - intros Hty. unfold processListener, getEventPayload. run_body. cbn.
    by rewrite Hop, Hty.
  - intros [name Hty] Hg. unfold processListener, getEventPayload. run_body. cbn.
    by rewrite Hop, Hty, Hg.
Qed.

(** X9.  [WebSocketClosedEvent] needs no track: with a player for the
    guild, [getEventPayload] calls nothing, does not read ["track"], and
    its result is that of [WebsocketClosedEvent(player, data)]. *)
Theorem getEventPayload_WebSocketClosedEvent
    (d : gmap string JSON) (g : JSON) (guildID : Z) (i : nat) (p : Player) (w : World) :
  d !! "guildId" = Some g ->
  int g = Ok guildID ->
  getPlayer guildID w = (Ok (i, p), w) ->
  getEventPayload (JStr "WebSocketClosedEvent") (JDict d) w
  = (built (WebsocketClosedEvent p (JDict d)), w).
Proof.
  intros Hg Hint Hp. unfold getEventPayload.
  rewrite (lift_ok _ _ g) by (by cbn; rewrite Hg).
  rewrite (lift_ok _ _ guildID) by done.
  rewrite (bind_ok _ _ (i, p) w w) by done.
  run_body. cbn. by destruct (WebsocketClosedEvent p (JDict d)).
Qed.

(** X10.  The four track names pick the four track events: with a player
    and a track that builds, each name gives the event of its own class,
    made from that player and that track ([TrackStartEvent] without the
    data, the other three with it), after the one [buildTrack] call. *)
Theorem getEventPayload_track_events
    (d : gmap string JSON) (g encoded : JSON) (guildID : Z) (i : nat) (p : Player)
    (track : Track) (w : World) :
  d !! "guildId" = Some g ->
  int g = Ok guildID ->
  getPlayer guildID w = (Ok (i, p), w) ->
  d !! "track" = Some encoded ->
  buildTrack encoded = Ok track ->
  let data := JDict d in
  let w1 := add_call (node_buildTrack encoded) w in
  getEventPayload (JStr "TrackStartEvent") data w = (built (TrackStartEvent p track), w1)
  /\ getEventPayload (JStr "TrackEndEvent") data w = (built (TrackEndEvent p track data), w1)
  /\ getEventPayload (JStr "TrackExceptionEvent") data w
     = (built (TrackExceptionEvent p track data), w1)
  /\ getEventPayload (JStr "TrackStuckEvent") data w
     = (built (TrackStuckEvent p track data), w1).
Proof.
  intros Hg Hint Hp Htr Hbuild data w1.
  assert (Hstart : forall name,
            eq_str name "WebSocketClosedEvent" = false ->
            getEventPayload name data w
            = (if eq_str name "TrackStartEvent" then
                 fun w => (built (TrackStartEvent p track), w)
               else if eq_str name "TrackEndEvent" then
                 fun w => (built (TrackEndEvent p track data), w)
               else if eq_str name "TrackExceptionEvent" then
                 fun w => (built (TrackExceptionEvent p track data), w)
               else if eq_str name "TrackStuckEvent" then
                 fun w => (built (TrackStuckEvent p track data), w)
               else fun w => (Ok None, w)) w1).
  { intros name Hname. unfold getEventPayload.
    rewrite (lift_ok _ _ g) by (by cbn; rewrite Hg).
    rewrite (lift_ok _ _ guildID) by done.
    rewrite (bind_ok _ _ (i, p) w w) by done. rewrite Hname.
    rewrite (lift_ok _ _ encoded) by (by cbn; rewrite Htr).
    run_body. rewrite Hbuild. cbn [snd].
    repeat case_match; done. }
  split_and!; by rewrite Hstart.
Qed.

(** X11.  An [event] that is not [WebSocketClosedEvent] and has no
    ["track"] field fails with [KeyError] on ["track"], a known name like
    an unknown one, and [buildTrack] is not called. *)
Theorem processListener_event_missing_track
    (d : gmap string JSON) (name g : JSON) (guildID : Z) (i : nat) (p : Player)
    (w : World) :
  d !! "op" = Some (JStr "event") ->
  d !! "type" = Some name ->
  eq_str name "WebSocketClosedEvent" = false ->
  d !! "guildId" = Some g ->
  int g = Ok guildID ->
  getPlayer guildID w = (Ok (i, p), w) ->
  d !! "track" = None ->
  processListener (JDict d) w = (Raise (KeyError "track"), w).
Proof.
  intros Hop Hty Hname Hg Hint Hp Htr.
  assert (Hb : getEventPayload name (JDict d) w = (Raise (KeyError "track"), w)).
  { unfold getEventPayload.
    rewrite (lift_ok _ _ g) by (by cbn; rewrite Hg).
    rewrite (lift_ok _ _ guildID) by done.
    rewrite (bind_ok _ _ (i, p) w w) by done. rewrite Hname.
    by rewrite (lift_raise _ _ (KeyError "track")) by (by cbn; rewrite Htr). }
  unfold processListener.
  rewrite (lift_ok _ _ (Some (JStr "event"))) by (by cbn; rewrite Hop).
  cbn [from_option eq_str].
  rewrite bool_decide_eq_false_2 by done. rewrite bool_decide_eq_true_2 by done.
  rewrite (lift_ok _ _ name) by (by cbn; rewrite Hty).
  by rewrite (bind_raise _ _ (KeyError "track") w w).
Qed.

End Events.

Section Loop.

Context {types : Types} {collaborators : Collaborators}.

Lemma count_app {A} (f : A -> bool) (l1 l2 : list A) :
  count f (l1 ++ l2) = (count f l1 + count f l2)%nat.
Proof. unfold count. by rewrite filter_app, length_app. Qed.

Lemma message_calls_counts data made :
  message_calls data made ->
  count is_sleep made = 0%nat /\ count is_receive made = 0%nat
  /\ count is_new_backoff made = 0%nat.
Proof. by destruct 1. Qed.

(** X12.  A message that is neither TEXT nor CLOSED (BINARY, PING, PONG,
    CLOSE, CLOSING, ERROR, CONTINUATION) is skipped: nothing is decoded,
    processed or slept, and the loop goes straight to the next
    [receive]. *)
Theorem listener_skips_other_types
    (msg : WSMessage) (rest : list (Result WSMessage)) (w : World) :
  type msg <> TEXT ->
  type msg <> CLOSED ->
  listener (Ok msg :: rest) w
  = listener rest (add_call connection_receive (add_call new_backoff w)).
Proof. intros Htext Hclosed. cbn [listener]. by destruct (type msg). Qed.

Lemma listener_frame (incoming : list (Result WSMessage)) (w : World) :
  node (snd (listener incoming w)) = node w
  /\ self (snd (listener incoming w)) = self w
  /\ guild_id <$> players (snd (listener incoming w)) = guild_id <$> players w.
Proof.
  revert w. induction incoming as [|[msg|e] incoming IH]; intros w;
    cbn [listener snd]; [done| |done].
  destruct (type msg);
    try (destruct (IH (add_call connection_receive (add_call new_backoff w)))
           as (? & ? & ?); done).
  - destruct (json msg) as [data|e]; [|done].
    destruct (processListener data _) as [[[]|e] w'] eqn:Hp;
      apply processListener_frame in Hp as (Hn & Hs & Hg).
    + destruct (IH w') as (-> & -> & ->). done.
    + done.
  - match goal with |- context [listener incoming ?w0] =>
      destruct (IH w0) as (? & ? & ?) end. done.
Qed.

(** X13.  The loop never touches the instance: whatever it receives and
    however it ends, [node] and the attributes of [self] are the same, so
    [isConnected] and [repr] answer as before, also after the coroutine
    has died; and the guild ids in [node.players] are the same list. *)
Theorem listener_keeps_instance (incoming : list (Result WSMessage)) (w : World) :
  let w' := snd (listener incoming w) in
  node w' = node w /\ self w' = self w
  /\ isConnected w' = isConnected w /\ __repr__ w' = __repr__ w
  /\ guild_id <$> players w' = guild_id <$> players w.
Proof.
  cbv zeta. destruct (listener_frame incoming w) as (Hn & Hs & Hg).
  unfold isConnected, __repr__. by rewrite Hn, Hs.
Qed.

(** X14.  The loop ends in three ways only, each an exception at one
    message, with the loop alive up to it: [receive] raised; a TEXT
    message could not be decoded; or processing a decoded TEXT message
    raised. *)
Theorem listener_stopped_inv
    (incoming : list (Result WSMessage)) (w w' : World) (e : exn) :
  listener incoming w = (Stopped e, w') ->
  exists before frame after,
    incoming = (before ++ frame :: after)%list
    /\ fst (listener before w) = Awaiting
    /\ (frame = Raise e
        \/ exists msg, frame = Ok msg /\ type msg = TEXT
             /\ (json msg = Raise e
                 \/ exists data w0, json msg = Ok data
                      /\ processListener data (received data w0) = (Raise e, w'))).
Proof.
  revert w. induction incoming as [|[msg|e0] incoming IH]; intros w; cbn [listener].
  - discriminate.
  - assert (Hnext : forall w1,
              (forall rest, listener (Ok msg :: rest) w = listener rest w1) ->
              listener incoming w1 = (Stopped e, w') ->
              exists before frame after,
                Ok msg :: incoming = (before ++ frame :: after)%list
                /\ fst (listener before w) = Awaiting
                /\ (frame = Raise e
                    \/ exists msg, frame = Ok msg /\ type msg = TEXT
                         /\ (json msg = Raise e
                             \/ exists data w0, json msg = Ok data
                                  /\ processListener data (received data w0)
                                     = (Raise e, w')))).
    { intros w1 Hstep Hrun.
      destruct (IH _ Hrun) as (before & frame & after & -> & Halive & Hframe).
      exists (Ok msg :: before), frame, after.
      split_and!; [done | by rewrite Hstep | done]. }
    destruct (type msg) eqn:Hty;
      try (apply Hnext; intros rest; cbn [listener]; by rewrite Hty).
    + destruct (json msg) as [data|e1] eqn:Hjson.
      * destruct (processListener data _) as [[[]|e1] w1] eqn:Hp.
        -- apply Hnext. intros rest. cbn [listener]. by rewrite Hty, Hjson, Hp.
        -- intros [= -> ->]. exists [], (Ok msg), incoming.
           split_and!; [done | done |]. right. exists msg.
           split_and!; [done | done |]. right. exists data, w. done.
      * intros [= -> <-]. exists [], (Ok msg), incoming.
        split_and!; [done | done |]. right. exists msg. auto.
  - intros [= -> <-]. exists [], (Raise e), incoming. auto.
Qed.

(** X15.  Messages that arrive later never change what happened: once
    the loop has ended, it has ended the same way with any messages
    behind; while it waits in [receive], the messages that arrive are
    handled from the world it was in before that [receive]. *)
Theorem listener_app (before after : list (Result WSMessage)) (w : World) :
  match listener before w with
  | (Stopped e, w') => listener (before ++ after) w = (Stopped e, w')
  | (Awaiting, w') =>
      exists w0, w' = add_call connection_receive (add_call new_backoff w0)
                 /\ listener (before ++ after) w = listener after w0
  end.
Proof.
  revert w. induction before as [|[msg|e] before IH]; intros w; cbn [listener app].
  - eauto.
  - destruct (type msg); try apply IH.
    destruct (json msg) as [data|e]; [|done].
    destruct (processListener data _) as [[[]|e] w1]; [apply IH | done].
  - done.
Qed.

(** X16.  Counting the calls of the loop: there is one fresh backoff per
    [receive]; and while the loop is alive it has called [receive] once
    per message and once more, and has slept once per CLOSED message, no
    more and no less. *)
Theorem listener_counts (incoming : list (Result WSMessage)) (w : World) :
  exists made,
    calls (snd (listener incoming w)) = (calls w ++ made)%list
    /\ count is_new_backoff made = count is_receive made
    /\ (fst (listener incoming w) = Awaiting ->
          count is_receive made = S (length incoming)
          /\ count is_sleep made = count is_closed incoming).
Proof.
  revert w. induction incoming as [|[msg|e] incoming IH]; intros w; cbn [listener].
  - exists [new_backoff; connection_receive]. cbn. by rewrite <- app_assoc.
  - assert (Hnext : forall w1 pre sleeps,
              calls w1 = (calls w ++ pre)%list ->
              count is_new_backoff pre = 1%nat -> count is_receive pre = 1%nat ->
              count is_sleep pre = sleeps ->
              count is_closed [Ok msg] = sleeps ->
              exists made,
                calls (snd (listener incoming w1)) = (calls w ++ made)%list
                /\ count is_new_backoff made = count is_receive made
                /\ (fst (listener incoming w1) = Awaiting ->
                      count is_receive made = S (length (Ok msg :: incoming))
                      /\ count is_sleep made = count is_closed (Ok msg :: incoming))).
    { intros w1 pre sleeps Hpre Hb Hr Hs Hc.
      destruct (IH w1) as (made & Hmade & Heq & Hlive).
      exists (pre ++ made)%list. rewrite Hmade, Hpre, <- app_assoc.
      split_and!; [done | rewrite !count_app; lia |].
      intros Halive. destruct (Hlive Halive) as [Hrecv Hsleep].
      change (Ok msg :: incoming) with ([Ok msg] ++ incoming)%list.
      rewrite !count_app, length_app. cbn [length]. lia. }
    assert (Hskip : calls (add_call connection_receive (add_call new_backoff w))
                    = (calls w ++ [new_backoff; connection_receive])%list).
    { cbn. by rewrite <- app_assoc. }
    destruct (type msg) eqn:Hty;
      try (apply (Hnext _ [new_backoff; connection_receive] 0%nat);
           [done | done | done | done | by unfold count; cbn; rewrite Hty]).
    + destruct (json msg) as [data|e] eqn:Hjson.
      * destruct (processListener data _) as [[[]|e] w1] eqn:Hp;
          apply processListener_made in Hp as (made & Hcalls & Hmade & _);
          apply message_calls_counts in Hmade as (Hs & Hr & Hb).
        -- apply (Hnext _ ([new_backoff; connection_receive;
                            create_task (co_processListener data)] ++ made)%list 0%nat).
           ++ rewrite Hcalls. cbn. by rewrite <- !app_assoc.
           ++ rewrite count_app. by rewrite Hb.
           ++ rewrite count_app. by rewrite Hr.
           ++ rewrite count_app. by rewrite Hs.
           ++ unfold count. cbn. by rewrite Hty.
        -- exists ([new_backoff; connection_receive;
                    create_task (co_processListener data)] ++ made)%list.
           cbn [fst snd]. split_and!.
           ++ rewrite Hcalls. cbn. by rewrite <- !app_assoc.
           ++ rewrite !count_app. rewrite Hb, Hr. done.
           ++ discriminate.
      * exists [new_backoff; connection_receive]. cbn [fst snd].
        split_and!; [done | done | discriminate].
    + apply (Hnext _ [new_backoff; connection_receive;
                      backoff_delay ExponentialBackoff;
                      sleep (fst (delay ExponentialBackoff))] 1%nat).
      * cbn. by rewrite <- !app_assoc.
      * done.
      * done.
      * done.
      * unfold count. cbn. by rewrite Hty.
  - exists [new_backoff; connection_receive]. cbn [fst snd].
    split_and!; [cbn; by rewrite <- app_assoc | done | discriminate].
Qed.

End Loop.

Section Connection.

Context {types : Types} {collaborators : Collaborators}.

Lemma connect_returns (c : ClientWebSocketResponse) (w : World) :
  connect (Ok c) w =
    (Ok tt,
     {| node := node w;
        self := {| open := true; connected := true; connection := Some c;
                   _listener := Some listener_task |};
        players := players w;
        calls := calls w ++
                 [ws_connect ("ws://" ++ host (node w) ++ ":" ++ str (port (node w)))
                             [("Authorization", password (node w));
                              ("User-Id", str (bot_user_id (node w)));
                              ("Client-Name", "Lavapy")]
                             60;
                  create_task co_listener] |}).
Proof.
  unfold connect. run_body. unfold add_call, set_self.
  cbn [node self players calls fst snd open connected connection _listener].
  unfold listener_task. by rewrite <- app_assoc.
Qed.

(** X17.  [connect] does not look at the state it is called in: on an
    instance that is connected already, a second [connect] opens a second
    websocket and starts a second listener task; the first connection is
    not closed and the first task is not cancelled, [self] just stops
    naming them. *)
Theorem connect_twice (c1 c2 : ClientWebSocketResponse) (w : World) :
  let opening :=
    ws_connect ("ws://" ++ host (node w) ++ ":" ++ str (port (node w)))
               [("Authorization", password (node w));
                ("User-Id", str (bot_user_id (node w)));
                ("Client-Name", "Lavapy")]
               60 in
  connect (Ok c2) (snd (connect (Ok c1) w)) =
    (Ok tt,
     {| node := node w;
        self := {| open := true; connected := true; connection := Some c2;
                   _listener := Some listener_task |};
        players := players w;
        calls := calls w ++ [opening; create_task co_listener;
                             opening; create_task co_listener] |}).
Proof.
  cbv zeta. rewrite (connect_returns c1 w). cbn [snd].
  rewrite connect_returns. cbn [node self players calls].
  by rewrite <- app_assoc.
Qed.

(** X18.  [disconnect] returns exactly when the instance has a connection
    object, open or closed; without one it raises [AttributeError] and
    leaves everything as it was, flags included. *)
Theorem disconnect_returns_iff (w : World) :
  (fst (disconnect w) = Ok tt <-> is_Some (connection (self w)))
  /\ (connection (self w) = None ->
        disconnect w = (Raise (AttributeError "close"), w)).
Proof.
  unfold disconnect. run_body.
  destruct (connection (self w)) as [c|]; cbn.
  - split; [|discriminate]. split; [eauto | done].
  - split; [|done]. split; [discriminate | by intros [? ?]].
Qed.

(** X19.  With a connection object, [disconnect] calls [close] once,
    leaves the connection closed and both flags false, and keeps the
    listener handle; doing it again calls [close] again and changes no
    attribute. *)
Theorem disconnect_then_again (c : ClientWebSocketResponse) (w : World) :
  connection (self w) = Some c ->
  let closed_self := {| open := false; connected := false;
                        connection := Some ws_closed;
                        _listener := _listener (self w) |} in
  let w1 := {| node := node w; self := closed_self; players := players w;
               calls := calls w ++ [connection_close] |} in
  disconnect w = (Ok tt, w1)
  /\ disconnect w1 =
       (Ok tt, {| node := node w; self := closed_self; players := players w;
                  calls := calls w ++ [connection_close; connection_close] |}).
Proof.
  intros Hc. cbv zeta. unfold disconnect. run_body. rewrite Hc. cbn.
  split; [done|]. unfold add_call, set_self. cbn. by rewrite <- app_assoc.
Qed.

(** X20.  In every world an instance can reach ([__init__], then
    [connect] with any handshake, [disconnect], messages and listener
    runs in any order): [open] and [connected] are equal, so
    [isConnected] is [connected]; a connected instance has a connection
    object; there is a listener handle exactly when there is a connection
    object; and that handle is a listener task on which [cancel] was
    never called. *)
Theorem reachable_consistent (w : World) :
  reachable w ->
  consistent (self w) /\ isConnected w = connected (self w).
Proof.
  intros Hreach.
  assert (Hc : consistent (self w)).
  { induction Hreach as [n ps|h w _ IH|w _ IH|data w _ IH|incoming w _ IH].
    - cbn. unfold consistent. cbn. split_and!; [done | done | done | done].
    - destruct h as [c|e].
      + rewrite connect_returns. unfold consistent. cbn.
        split_and!; [done | eauto | done | by intros t [= <-]].
      + unfold connect. run_body. done.
    - destruct IH as (Hflags & Hconn & Hnone & Htask).
      unfold disconnect. run_body.
      destruct (connection (self w)) as [c|] eqn:Hcon; cbn.
      + unfold consistent. cbn. split_and!; [done | done | | done].
        split; [done|]. intros Hl. by apply Hnone in Hl.
      + unfold consistent. by rewrite Hcon.
    - destruct (processListener data w) as [r w'] eqn:Hp.
      apply processListener_frame in Hp as (_ & Hs & _). cbn. by rewrite Hs.
    - destruct (listener_frame incoming w) as (_ & Hs & _). by rewrite Hs. }
  split; [done|]. destruct Hc as (Hflags & _).
  unfold isConnected. rewrite Hflags. by destruct (connected (self w)).
Qed.

(** X21.  [repr] follows the connection: after a [connect] whose
    handshake succeeded it says [Connected=True], after a [disconnect]
    that returned it says [Connected=False], in both cases with the node's
    host and port. *)
Theorem repr_follows_connection (c : ClientWebSocketResponse) (w : World) :
  __repr__ (snd (connect (Ok c) w))
  = "<Lavapy Websocket (Domain=" ++ host (node w) ++ ":" ++ str (port (node w))
    ++ ") (Connected=True)>"
  /\ (is_Some (connection (self w)) ->
        __repr__ (snd (disconnect w))
        = "<Lavapy Websocket (Domain=" ++ host (node w) ++ ":" ++ str (port (node w))
          ++ ") (Connected=False)>").
Proof.
  split.
  - unfold connect. run_body. done.
  - intros [c0 Hc]. unfold disconnect. run_body. rewrite Hc. done.
Qed.

End Connection.

(** ** The backoff of the specification *)

Section BackoffModel.

Import SpecModel.

(** Between two uses the bound does not go down. *)
Lemma next_delay_monotone (s : BackoffState) :
  0 <= base s ->
  fst (next_delay s) <= fst (next_delay (snd (next_delay s))).
Proof.
  intros Hbase. cbn. unfold bound. cbn [base maximum uses].
  apply Z.min_le_compat_r.
  rewrite Nat2Z.inj_succ, Z.pow_succ_r by lia.
  assert (0 < 2 ^ Z.of_nat (uses s)) by (apply Z.pow_pos_nonneg; lia).
  nia.
Qed.

Example delays_1_60 : delays 8 (fresh 1 60) = [1; 2; 4; 8; 16; 32; 60; 60].
Proof. reflexivity. Qed.

End BackoffModel.

(** ** The scenario, run *)

Section Runs.

Import SpecModel Scenario.

(** C3 (what the code does).  Two CLOSED messages in a row: a backoff is
    constructed before each [receive], so both delays are a first delay, 1
    and 1, where two uses of one backoff give 1 and 2. *)
Theorem listener_backoff_made_anew_each_iteration :
  calls_since connected_world
              (snd (listener [Ok closed; Ok closed] connected_world))
  = [new_backoff; connection_receive; backoff_delay (fresh 1 60); sleep 1;
     new_backoff; connection_receive; backoff_delay (fresh 1 60); sleep 1;
     new_backoff; connection_receive]
  /\ delays 2 (fresh 1 60) = [1; 2].
Proof. split; reflexivity. Qed.

Lemma no_player_for_guild7 (p : Player) :
  p ∈ players connected_world -> guild_id p <> 7.
Proof.
  change (players connected_world) with [player123].
  intros ->%list_elem_of_singleton. discriminate.
Qed.

Lemma processListener_playerUpdate_unknown_guild_witness :
  processListener (JDict (list_to_map update_guild7)) connected_world
  = (Raise IndexError, connected_world).
Proof.
  apply (processListener_playerUpdate_unknown_guild
           (list_to_map update_guild7) (JStr "7") 7 connected_world).
  - reflexivity.
  - reflexivity.
  - reflexivity.
  - exact no_player_for_guild7.
Defined.

(** C1 as stated fails: the failure of the lookup is an [IndexError], not
    a [PlayerNotFound]. *)
Lemma playerUpdate_unknown_guild_not_PlayerNotFound :
  (forall p, p ∈ players connected_world -> guild_id p <> 7)
  /\ fst (processListener (JDict (list_to_map update_guild7)) connected_world)
     = Raise IndexError
  /\ fst (processListener (JDict (list_to_map update_guild7)) connected_world)
     <> Raise (Custom "PlayerNotFound").
Proof.
  split; [exact no_player_for_guild7|]. split; [reflexivity|].
  vm_compute. discriminate.
Qed.



Lemma listener_single_closed_frame_witness :
  listener [Ok closed] connected_world
  = (Awaiting,
     {| node := lavalink; self := self connected_world; players := [player123];
        calls := calls connected_world ++
                 [new_backoff; connection_receive; backoff_delay (fresh 1 60);
                  sleep 1; new_backoff; connection_receive] |}).
Proof. exact (listener_single_closed_frame closed connected_world eq_refl). Defined.

(** C4 as stated fails: after the one delay the listener neither connects
    again nor stops. *)
Lemma listener_closed_neither_reconnects_nor_stops :
  let run := listener [Ok closed] connected_world in
  ~ ((exists url headers heartbeat,
         ws_connect url headers heartbeat ∈ calls_since connected_world (snd run))
     \/ (exists e, fst run = Stopped e)).
Proof.
  cbv zeta. intros [(url & headers & heartbeat & Hin)|[e He]].
  - change (calls_since connected_world (snd (listener [Ok closed] connected_world)))
      with [new_backoff; connection_receive; backoff_delay (fresh 1 60); sleep 1;
            new_backoff; connection_receive] in Hin.
    repeat (apply elem_of_cons in Hin as [Hin|Hin]; [discriminate|]).
    by apply not_elem_of_nil in Hin.
  - vm_compute in He. discriminate.
Qed.

Lemma getEventPayload_unrecognized_name_witness :
  getEventPayload (JStr "FooEvent") (JDict (list_to_map foo_event)) connected_world
  = (Ok None, add_call (node_buildTrack (JStr "QAAAjQIAJVJpY2s")) connected_world)
  /\ processListener (JDict (list_to_map foo_event)) connected_world
     = (Raise (AttributeError "event"),
        add_call (node_buildTrack (JStr "QAAAjQIAJVJpY2s")) connected_world).
Proof.
  apply (getEventPayload_unrecognized_name
           (list_to_map foo_event) (JStr "FooEvent") (JStr "123")
           (JStr "QAAAjQIAJVJpY2s") 123 (0%nat, player123)
           {| encoded := "QAAAjQIAJVJpY2s" |} connected_world);
    reflexivity.
Defined.

Lemma disconnect_leaves_listener_witness :
  disconnect connected_world = (Ok tt, disconnected_world)
  /\ listener [Ok closed; Ok closed] disconnected_world =
       (Awaiting,
        {| node := lavalink; self := self disconnected_world;
           players := [player123];
           calls := calls connected_world ++
                    [connection_close;
                     new_backoff; connection_receive; backoff_delay (fresh 1 60);
                     sleep 1;
                     new_backoff; connection_receive; backoff_delay (fresh 1 60);
                     sleep 1;
                     new_backoff; connection_receive] |}).
Proof.
  destruct (disconnect_leaves_listener ws_open connected_world [closed; closed])
    as [Hreturns Hloop]; [reflexivity | by repeat constructor |].
  split.
  - etrans; [exact Hreturns | reflexivity].
  - etrans; [exact Hloop | reflexivity].
Defined.

(** C6 as stated fails: [disconnect] returns, the listener task has not
    been cancelled, and the coroutine goes on with the next message. *)
Lemma listener_outlives_disconnect :
  disconnect connected_world = (Ok tt, disconnected_world)
  /\ isConnected disconnected_world = false
  /\ _listener (self disconnected_world)
     = Some {| coro := co_listener; cancel_requested := false |}
  /\ fst (listener [Ok closed] disconnected_world) = Awaiting
  /\ ~ (forall t, _listener (self disconnected_world) = Some t ->
                  cancel_requested t = true).
Proof.
  repeat (split; [reflexivity|]).
  intros Hcancelled. by specialize (Hcancelled _ eq_refl).
Qed.

(** The [TrackEndEvent] of guild 123: one dispatch, named
    ["lavapy_trackend"], with the guild and the reason in the payload. *)
Lemma processListener_event_dispatch_witness :
  let built := add_call (node_buildTrack (JStr "QAAAjQIAJVJpY2s")) connected_world in
  getEventPayload (JStr "TrackEndEvent") (JDict (list_to_map track_end)) connected_world
  = (Ok (Some track_end_event), built)
  /\ payload track_end_event !! "guildId" = Some (PyJSON (JInt 123))
  /\ payload track_end_event !! "reason" = Some (PyJSON (JStr "FINISHED"))
  /\ processListener (JDict (list_to_map track_end)) connected_world
     = (Ok tt, add_call (bot_dispatch "lavapy_trackend" (payload track_end_event)) built).
Proof.
  cbv zeta. repeat (split; [reflexivity|]).
  exact (proj1 (processListener_event_dispatch
                  (list_to_map track_end) (JStr "TrackEndEvent") track_end_event
                  connected_world
                  (add_call (node_buildTrack (JStr "QAAAjQIAJVJpY2s")) connected_world)
                  eq_refl eq_refl eq_refl)).
Defined.

Lemma getEventPayload_order_witness :
  getEventPayload (JStr "WebSocketClosedEvent") (JDict (list_to_map update_guild7))
                  connected_world
  = (Raise IndexError, connected_world)
  /\ exists r,
       getEventPayload (JStr "FooEvent") (JDict (list_to_map foo_event)) connected_world
       = (r, add_call (node_buildTrack (JStr "QAAAjQIAJVJpY2s")) connected_world)
       /\ (forall e, buildTrack (JStr "QAAAjQIAJVJpY2s") = Raise e -> r = Raise e).
Proof.
  split.
  - apply (getEventPayload_order (JStr "WebSocketClosedEvent")
             (JDict (list_to_map update_guild7)) (JStr "7") 7 connected_world);
      [reflexivity | reflexivity | exact no_player_for_guild7].
  - apply (getEventPayload_order (JStr "FooEvent")
             (JDict (list_to_map foo_event)) (JStr "123") 123 connected_world)
      with (player := (0%nat, player123)); reflexivity.
Defined.

End Runs.

(** ** More runs of the scenario *)

Section MoreRuns.

Import SpecModel Scenario.

Lemma getPlayer_first_match_witness :
  getPlayer 123 crowded = (Ok (1%nat, player123), crowded).
Proof.
  apply (proj2 (getPlayer_first_match 123 crowded 1 player123)).
  split_and!; [reflexivity | reflexivity |].
  intros [|j] q Hj Hq; [|lia]. injection Hq as <-. discriminate.
Defined.

Lemma getPlayer_IndexError_iff_witness :
  getPlayer 9 crowded = (Raise IndexError, crowded).
Proof.
  apply (proj2 (proj1 (getPlayer_IndexError_iff 9 crowded))).
  change (players crowded) with [player7; player123; player123_again].
  intros p Hp.
  repeat (apply elem_of_cons in Hp as [->|Hp]; [discriminate|]).
  by apply not_elem_of_nil in Hp.
Defined.

Lemma processListener_playerUpdate_first_player_witness :
  let data := JDict (list_to_map update_guild123) in
  let updated := {| guild_id := 123; player_state := [data] |} in
  playerUpdate_objects data aliased = (Ok tt, updateState_object data 1 aliased)
  /\ node_players (updateState_object data 1 aliased)
     = [player7; updated; player123_again; updated].
Proof.
  cbv zeta. split; [|reflexivity].
  apply (processListener_playerUpdate_first_player
           (list_to_map update_guild123) (JStr "123") 123 1 1 aliased);
    try reflexivity.
  intros [|j] b Hj Hb; [|lia]. injection Hb as <-. discriminate.
Defined.

Lemma processListener_failure_changes_nothing_witness :
  players (add_call (node_buildTrack (JStr "QAAAjQIAJVJpY2s")) connected_world)
  = players connected_world
  /\ self (add_call (node_buildTrack (JStr "QAAAjQIAJVJpY2s")) connected_world)
     = self connected_world
  /\ (calls (add_call (node_buildTrack (JStr "QAAAjQIAJVJpY2s")) connected_world)
      = calls connected_world
      \/ exists encoded,
           calls (add_call (node_buildTrack (JStr "QAAAjQIAJVJpY2s")) connected_world)
           = (calls connected_world ++ [node_buildTrack encoded])%list).
Proof.
  apply (processListener_failure_changes_nothing
           (JDict (list_to_map foo_event)) connected_world _ (AttributeError "event")).
  reflexivity.
Defined.

Lemma processListener_playerUpdate_bad_guildId_witness :
  processListener (JDict (list_to_map update_without_guild)) connected_world
  = (Raise (KeyError "guildId"), connected_world)
  /\ processListener (JDict (list_to_map update_guild_abc)) connected_world
     = (Raise ValueError, connected_world).
Proof.
  split.
  - apply (processListener_playerUpdate_bad_guildId
             (list_to_map update_without_guild) connected_world); reflexivity.
  - destruct (processListener_playerUpdate_bad_guildId
                (list_to_map update_guild_abc) connected_world) as [_ Hint];
      [reflexivity|].
    apply (Hint (JStr "abc")); reflexivity.
Defined.

Lemma processListener_event_missing_field_witness :
  processListener (JDict (list_to_map event_without_type)) connected_world
  = (Raise (KeyError "type"), connected_world)
  /\ processListener (JDict (list_to_map event_without_guild)) connected_world
     = (Raise (KeyError "guildId"), connected_world).
Proof.
  split.
  - apply (processListener_event_missing_field
             (list_to_map event_without_type) connected_world); reflexivity.
  - apply (processListener_event_missing_field
             (list_to_map event_without_guild) connected_world);
      [reflexivity | by eexists | reflexivity].
Defined.

Lemma getEventPayload_WebSocketClosedEvent_witness :
  getEventPayload (JStr "WebSocketClosedEvent") (JDict (list_to_map socket_closed))
                  connected_world
  = (built (WebsocketClosedEvent player123 (JDict (list_to_map socket_closed))),
     connected_world).
Proof.
  apply (getEventPayload_WebSocketClosedEvent
           (list_to_map socket_closed) (JStr "123") 123 0 player123 connected_world);
    reflexivity.
Defined.

Lemma getEventPayload_track_events_witness :
  getEventPayload (JStr "TrackEndEvent") (JDict (list_to_map track_end)) connected_world
  = (Ok (Some track_end_event),
     add_call (node_buildTrack (JStr "QAAAjQIAJVJpY2s")) connected_world).
Proof.
  destruct (getEventPayload_track_events
              (list_to_map track_end) (JStr "123") (JStr "QAAAjQIAJVJpY2s") 123 0
              player123 {| encoded := "QAAAjQIAJVJpY2s" |} connected_world)
    as (_ & Hend & _); [reflexivity | reflexivity | reflexivity | reflexivity
                        | reflexivity |].
  etrans; [exact Hend | reflexivity].
Defined.

Lemma processListener_event_missing_track_witness :
  processListener (JDict (list_to_map event_without_track)) connected_world
  = (Raise (KeyError "track"), connected_world).
Proof.
  apply (processListener_event_missing_track
           (list_to_map event_without_track) (JStr "TrackStartEvent") (JStr "123")
           123 0 player123 connected_world);
    reflexivity.
Defined.

Lemma listener_skips_other_types_witness :
  listener [Ok ping; Ok closed] connected_world
  = listener [Ok closed]
             (add_call connection_receive (add_call new_backoff connected_world)).
Proof.
  apply (listener_skips_other_types ping [Ok closed] connected_world); discriminate.
Defined.

Lemma listener_stopped_inv_witness :
  let incoming := [Ok (text stats); Ok (text update_guild7); Ok closed] in
  exists before frame after,
    incoming = (before ++ frame :: after)%list
    /\ fst (listener before connected_world) = Awaiting
    /\ (frame = Raise IndexError
        \/ exists msg, frame = Ok msg /\ type msg = TEXT
             /\ (json msg = Raise IndexError
                 \/ exists data w0, json msg = Ok data
                      /\ processListener data (received data w0)
                         = (Raise IndexError, snd (listener incoming connected_world)))).
Proof.
  cbv zeta.
  apply (listener_stopped_inv
           [Ok (text stats); Ok (text update_guild7); Ok closed] connected_world
           (snd (listener [Ok (text stats); Ok (text update_guild7); Ok closed]
                          connected_world))
           IndexError).
  reflexivity.
Defined.

Lemma listener_counts_witness :
  exists made,
    calls (snd (listener [Ok closed; Ok ping; Ok closed] connected_world))
    = (calls connected_world ++ made)%list
    /\ count is_receive made = 4%nat /\ count is_sleep made = 2%nat.
Proof.
  destruct (listener_counts [Ok closed; Ok ping; Ok closed] connected_world)
    as (made & Hmade & _ & Hlive).
  exists made. split; [exact Hmade|]. exact (Hlive eq_refl).
Defined.

Lemma disconnect_returns_iff_witness :
  fst (disconnect connected_world) = Ok tt
  /\ disconnect created = (Raise (AttributeError "close"), created).
Proof.
  split.
  - apply (proj1 (disconnect_returns_iff connected_world)). by eexists.
  - apply (proj2 (disconnect_returns_iff created)). reflexivity.
Defined.

Lemma disconnect_then_again_witness :
  disconnect connected_world = (Ok tt, disconnected_world)
  /\ self (snd (disconnect disconnected_world)) = self disconnected_world.
Proof.
  destruct (disconnect_then_again ws_open connected_world) as [Hfirst Hagain];
    [reflexivity|].
  split.
  - etrans; [exact Hfirst | reflexivity].
  - match type of Hagain with
    | disconnect ?w1 = _ => change disconnected_world with w1
    end.
    by rewrite Hagain.
Defined.

Lemma reachable_consistent_witness :
  consistent (self disconnected_world)
  /\ isConnected disconnected_world = connected (self disconnected_world).
Proof.
  apply (reachable_consistent disconnected_world).
  unfold disconnected_world, connected_world, created.
  apply reachable_disconnect, reachable_connect, reachable_init.
Defined.

Lemma repr_follows_connection_witness :
  __repr__ connected_world
  = "<Lavapy Websocket (Domain=localhost:2333) (Connected=True)>"
  /\ __repr__ disconnected_world
     = "<Lavapy Websocket (Domain=localhost:2333) (Connected=False)>".
Proof.
  split.
  - exact (proj1 (repr_follows_connection ws_open created)).
  - apply (proj2 (repr_follows_connection ws_open connected_world)). by eexists.
Defined.

End MoreRuns.
